(** * Boundary MCP: the decision-analysis pipeline

    A shallow embedding of the five analyzers of [src/analyzers]
    (reframe, variables, strategies, risk, bias) and of the
    [analyzeDecision] tool that chains them, followed by the properties
    of the pipeline.

    Conventions of the embedding:
    - a JavaScript string is the list of its UTF-16 code units;
    - a JavaScript number is an IEEE 754 binary64 value ([float]);
    - a [RegExp] object is a value plus its mutable [lastIndex], kept in
      a store that every stateful operation threads;
    - arrays are lists; objects used as tables are association lists in
      insertion order (what [Object.entries] enumerates for keys that are
      not array indices). *)

From Stdlib Require Import ZArith NArith List Bool Floats Lia.
From stdpp Require Import base option list strings gmap.
Import ListNotations.

(** ** JavaScript values *)

Module JS.

(** *** Strings *)

(** A string value: the sequence of its 16-bit code units. *)
Abbreviation JsString := (list N).

(** Code points of a UTF-8 byte sequence (the encoding of this file's
    literals). *)
Fixpoint utf8_code_points (bs : list N) : list N :=
  match bs with
  | [] => []
  | b0 :: r0 =>
    if (b0 <? 0x80)%N then b0 :: utf8_code_points r0
    else
      match r0 with
      | [] => []
      | b1 :: r1 =>
        if (b0 <? 0xE0)%N
        then ((b0 - 0xC0) * 0x40 + (b1 - 0x80))%N :: utf8_code_points r1
        else
          match r1 with
          | [] => []
          | b2 :: r2 =>
            if (b0 <? 0xF0)%N
            then ((b0 - 0xE0) * 0x1000 + (b1 - 0x80) * 0x40 + (b2 - 0x80))%N
                   :: utf8_code_points r2
            else
              match r2 with
              | [] => []
              | b3 :: r3 =>
                ((b0 - 0xF0) * 0x40000 + (b1 - 0x80) * 0x1000
                 + (b2 - 0x80) * 0x40 + (b3 - 0x80))%N
                  :: utf8_code_points r3
              end
          end
      end
  end.

(** UTF-16 code units of one code point. *)
Definition code_units (cp : N) : JsString :=
  if (cp <? 0x10000)%N then [cp]
  else
    let c := (cp - 0x10000)%N in
    [(0xD800 + c / 0x400)%N; (0xDC00 + c mod 0x400)%N].

(** A string literal of the source. *)
Definition js (s : string) : JsString :=
  flat_map code_units
    (utf8_code_points (map Ascii.N_of_ascii (String.list_ascii_of_string s))).

#[global] Arguments js : simpl never.

(** [a === b] on strings. *)
Fixpoint String_eqb (a b : JsString) : bool :=
  match a, b with
  | [], [] => true
  | x :: a', y :: b' => (x =? y)%N && String_eqb a' b'
  | _, _ => false
  end.

(** [s.startsWith(k)]. *)
Fixpoint String_startsWith (s k : JsString) {struct k} : bool :=
  match k, s with
  | [], _ => true
  | y :: k', x :: s' => (x =? y)%N && String_startsWith s' k'
  | _ :: _, [] => false
  end.

(** [s.includes(k)]: [k] occurs in [s] as a run of code units. *)
Fixpoint String_includes (s k : JsString) : bool :=
  String_startsWith s k ||
  match s with
  | [] => false
  | _ :: s' => String_includes s' k
  end.

(** [parts.join(sep)]. *)
Fixpoint Array_join (parts : list JsString) (sep : JsString) : JsString :=
  match parts with
  | [] => []
  | [p] => p
  | p :: rest => p ++ sep ++ Array_join rest sep
  end.

(** [arr.includes(x)] on an array of strings. *)
Definition Array_includes (arr : list JsString) (x : JsString) : bool :=
  existsb (String_eqb x) arr.

(** *** Numbers *)

(** The number whose value is the integer [z] (exact below 2^53). *)
Definition Number_of_Z (z : Z) : float :=
  SF2Prim (binary_normalize prec emax z 0 false).

(** [arr.length] as a number. *)
Definition Number_of_nat (n : nat) : float := Number_of_Z (Z.of_nat n).

(** [Math.min(x, y)]: NaN if either is NaN, and -0 below +0. *)
Definition Math_min (x y : float) : float :=
  if is_nan x || is_nan y then nan
  else if (x <? y)%float then x
  else if (y <? x)%float then y
  else if get_sign x then x else y.

(** [Math.max(x, y)]: NaN if either is NaN, and +0 above -0. *)
Definition Math_max (x y : float) : float :=
  if is_nan x || is_nan y then nan
  else if (x <? y)%float then y
  else if (y <? x)%float then x
  else if get_sign x then y else x.

(** [Math.round(x)]: the integer nearest to [x], ties towards +infinity;
    NaN, the infinities and integers are returned unchanged, and a zero
    result keeps the sign of [x]. *)
Definition Math_round (x : float) : float :=
  match Prim2SF x with
  | S754_finite s m e =>
    if (0 <=? e)%Z then x
    else
      let n := ((cond_Zopp s (Z.pos m) * 2 + 2 ^ (- e)) / 2 ^ (1 - e))%Z in
      if (n =? 0)%Z then (if s then neg_zero else zero) else Number_of_Z n
  | _ => x
  end.

(** *** Regular expressions *)

(** The fragment of the pattern language the repository uses: literal
    characters, [.], [.*], and alternation at top level. *)
Inductive Term : Type :=
  | Char (c : N)
  | Dot
  | DotStar.

Abbreviation Alternative := (list Term).

(** A RegExp object.  [ref] is the identity of the object: its mutable
    [lastIndex] lives in the store under that key. *)
Record RegExp : Type := mkRegExp {
  ref : nat;
  disjunction : list Alternative;
  global : bool;
  ignoreCase : bool;
}.

(** [lastIndex] of every RegExp object that has been written to; an object
    not in the store still has the 0 it was created with. *)
Abbreviation Store := (gmap nat nat).

Definition getLastIndex (σ : Store) (R : RegExp) : nat :=
  default 0 (σ !! ref R).

Definition setLastIndex (σ : Store) (R : RegExp) (i : nat) : Store :=
  <[ref R := i]> σ.

(** Parsing of a pattern's source text. *)
Fixpoint parseAlternative (p : JsString) : Alternative :=
  match p with
  | [] => []
  | c :: p' =>
    if (c =? 46)%N (* . *) then
      match p' with
      | d :: p'' =>
        if (d =? 42)%N (* * *) then DotStar :: parseAlternative p''
        else Dot :: parseAlternative p'
      | [] => [Dot]
      end
    else Char c :: parseAlternative p'
  end.

(** Split at every [|]. *)
Fixpoint splitBars (p : JsString) (cur : JsString) : list JsString :=
  match p with
  | [] => [rev cur]
  | c :: p' =>
    if (c =? 124)%N then rev cur :: splitBars p' [] else splitBars p' (c :: cur)
  end.

Definition parsePattern (p : JsString) : list Alternative :=
  map parseAlternative (splitBars p []).

(** The RegExp object at address [r] that the literal [/source/flags]
    creates. *)
Definition regex (r : nat) (source flags : string) : RegExp :=
  {| ref := r;
     disjunction := parsePattern (js source);
     global := String_includes (js flags) (js "g");
     ignoreCase := String_includes (js flags) (js "i") |}.

(** [.] matches any code unit but a line terminator
    (LF, CR, U+2028, U+2029). *)
Definition isLineTerminator (c : N) : bool :=
  (c =? 0x0A)%N || (c =? 0x0D)%N || (c =? 0x2028)%N || (c =? 0x2029)%N.

(** Canonicalize of the i flag, on the ASCII letters.  This is exact for
    the repository's patterns: their other characters are CJK ideographs,
    which have no case mapping, and no character outside ASCII
    canonicalizes to an ASCII one. *)
Definition canonicalize (ic : bool) (c : N) : N :=
  if ic && (97 <=? c)%N && (c <=? 122)%N then (c - 32)%N else c.

(** Backtracking match of one alternative at the head of [s]: the number
    of code units the match consumes.  [.*] is greedy. *)
Fixpoint matchTerms (ic : bool) (ts : Alternative) (s : JsString)
  : option nat :=
  match ts with
  | [] => Some 0
  | Char c :: ts' =>
    match s with
    | x :: s' =>
      if (canonicalize ic x =? canonicalize ic c)%N
      then S <$> matchTerms ic ts' s'
      else None
    | [] => None
    end
  | Dot :: ts' =>
    match s with
    | x :: s' =>
      if isLineTerminator x then None else S <$> matchTerms ic ts' s'
    | [] => None
    end
  | DotStar :: ts' =>
    (fix star (s : JsString) : option nat :=
       match s with
       | [] => matchTerms ic ts' []
       | x :: s' =>
         if isLineTerminator x then matchTerms ic ts' s
         else
           match star s' with
           | Some n => Some (S n)
           | None => matchTerms ic ts' s
           end
       end) s
  end.

(** The alternatives are tried left to right; the first that matches
    wins. *)
Fixpoint matchDisjunction (ic : bool) (alts : list Alternative)
  (s : JsString) : option nat :=
  match alts with
  | [] => None
  | ts :: alts' =>
    match matchTerms ic ts s with
    | Some n => Some n
    | None => matchDisjunction ic alts' s
    end
  end.

(** The first position at or after [i] (the head of [s]) where the pattern
    matches, with the length of the match there. *)
Fixpoint search (R : RegExp) (s : JsString) (i : nat) : option (nat * nat) :=
  match matchDisjunction (ignoreCase R) (disjunction R) s with
  | Some n => Some (i, n)
  | None =>
    match s with
    | [] => None
    | _ :: s' => search R s' (S i)
    end
  end.

(** What a successful [exec] reports: where the match starts and its
    text. *)
Record MatchResult : Type := mkMatch {
  index : nat;
  matched : JsString;
}.

(** RegExpBuiltinExec(R, S): a RegExp without the g flag starts at 0 and
    leaves [lastIndex] alone; one with it starts at [lastIndex], stores
    the end of the match there, and resets it to 0 on failure. *)
Definition RegExp_exec (R : RegExp) (S : JsString) (σ : Store)
  : option MatchResult * Store :=
  let lastIndex := if global R then getLastIndex σ R else 0 in
  if (length S <? lastIndex)%nat then
    (None, if global R then setLastIndex σ R 0 else σ)
  else
    match search R (drop lastIndex S) lastIndex with
    | None => (None, if global R then setLastIndex σ R 0 else σ)
    | Some (i, n) =>
      (Some (mkMatch i (take n (drop i S))),
       if global R then setLastIndex σ R (i + n) else σ)
    end.

(** [R.test(S)]. *)
Definition RegExp_test (R : RegExp) (S : JsString) (σ : Store)
  : bool * Store :=
  let '(r, σ') := RegExp_exec R S σ in (bool_decide (is_Some r), σ').

(** [R.test(S)] for a RegExp without the g flag, which reads and writes
    no state (lemma [RegExp_test_not_global]). *)
Definition RegExp_test_pure (R : RegExp) (S : JsString) : bool :=
  bool_decide (is_Some (search R S 0)).

(** The loop of RegExp.prototype[Symbol.match] for a global RegExp:
    [exec] until it fails, collecting the matched texts; after an empty
    match [lastIndex] is advanced by one.  Each round moves [lastIndex]
    forward, so [length S + 2] rounds are enough
    (lemma [matchLoop_fuel]). *)
Fixpoint matchLoop (fuel : nat) (R : RegExp) (S : JsString)
  (A : list JsString) (σ : Store) : list JsString * Store :=
  match fuel with
  | O => (A, σ)
  | Datatypes.S fuel' =>
    match RegExp_exec R S σ with
    | (None, σ') => (A, σ')
    | (Some r, σ') =>
      let σ'' :=
        match matched r with
        | [] => setLastIndex σ' R (getLastIndex σ' R + 1)
        | _ => σ'
        end in
      matchLoop fuel' R S (A ++ [matched r]) σ''
    end
  end.

(** [S.match(R)]: [null] ([None]) or the array of matches.  Without the g
    flag it is a single [exec]; with it, [lastIndex] is first set to 0
    and every match is collected. *)
Definition String_match (S : JsString) (R : RegExp) (σ : Store)
  : option (list JsString) * Store :=
  if global R then
    let '(A, σ') := matchLoop (length S + 2) R S [] (setLastIndex σ R 0) in
    (match A with [] => None | _ => Some A end, σ')
  else
    let '(r, σ') := RegExp_exec R S σ in
    ((fun m => [matched m]) <$> r, σ').

End JS.

Import JS.

(** ** Data model ([src/types]) *)

Module ReframedProblem.
Record t : Type := mk {
  original : JsString;
  reframed : JsString;
  emotionalElements : list JsString;
}.
End ReframedProblem.

Module VariablesAndConstraints.
Record t : Type := mk {
  goals : list JsString;
  keyVariables : list JsString;
  hardConstraints : list JsString;
  uncertainties : list JsString;
}.
End VariablesAndConstraints.

(** The union ["aggressive" | "conservative" | "hedge" | "exit"].  The
    configuration table is checked against it at compile time; a
    [Strategy] value that reaches [analyzeRisk] at run time carries a
    plain string. *)
Inductive StrategyType : Type :=
  | aggressive
  | conservative
  | hedge
  | exit.

Definition StrategyType_value (ty : StrategyType) : JsString :=
  match ty with
  | aggressive => js "aggressive"
  | conservative => js "conservative"
  | hedge => js "hedge"
  | exit => js "exit"
  end.

Module Strategy.
Record t : Type := mk {
  id : JsString;
  name : JsString;
  type : JsString;
  typeLabel : JsString;
  preconditions : list JsString;
  executionCost : JsString;
  triggerPoints : list JsString;
  worstCase : JsString;
}.
End Strategy.

Module StrategySpace.
Record t : Type := mk {
  strategies : list Strategy.t;
}.
End StrategySpace.

Module OutcomeDistribution.
Record t : Type := mk {
  probability : float;
  description : JsString;
}.
End OutcomeDistribution.

Module RiskRewardAnalysis.
Record t : Type := mk {
  strategyId : JsString;
  strategyName : JsString;
  distributions : list OutcomeDistribution.t;
}.
End RiskRewardAnalysis.

Inductive BiasType : Type :=
  | survivorship
  | narrative
  | groupPressure
  | shortTermFocus
  | confirmationBias
  | anchoringBias
  | sunkCostFallacy
  | other.

Module CognitiveBias.
Record t : Type := mk {
  type : BiasType;
  typeLabel : JsString;
  description : JsString;
  mitigation : JsString;
}.
End CognitiveBias.

Module BiasWarnings.
Record t : Type := mk {
  biases : list CognitiveBias.t;
}.
End BiasWarnings.

Module DecisionAnalysis.
Record t : Type := mk {
  reframedProblem : ReframedProblem.t;
  variablesAndConstraints : VariablesAndConstraints.t;
  strategySpace : StrategySpace.t;
  riskRewardAnalysis : list RiskRewardAnalysis.t;
  biasWarnings : BiasWarnings.t;
}.
End DecisionAnalysis.

(** ** [src/analyzers/reframe.ts] *)

Module Reframe.

(** The sixteen RegExp objects of the two tables are created once, when
    the module is loaded, and shared by every call: addresses 0 to 15. *)
Definition EMOTIONAL_PATTERNS : list (RegExp * JsString) :=
  [ (regex 0 "焦虑|担心|害怕|恐惧|紧张" "g", js "焦虑情绪");
    (regex 1 "愤怒|生气|气愤|不爽|烦" "g", js "愤怒情绪");
    (regex 2 "绝望|无望|没希望|完蛋" "g", js "绝望情绪");
    (regex 3 "兴奋|激动|太棒了|amazing" "gi", js "过度兴奋");
    (regex 4 "必须|一定要|只能|不得不" "g", js "强迫性表达");
    (regex 5 "肯定会|绝对会|一定会|必然" "g", js "过度确定");
    (regex 6 "再不.*就.*来不及|错过.*机会|最后.*机会" "g", js "紧迫感假设");
    (regex 7 "别人都|大家都|很多人都|身边.*都" "g", js "群体压力");
    (regex 8 "卷|内卷|太卷|卷死" "g", js "竞争焦虑");
    (regex 9 "润|跑路|逃离|逃" "g", js "逃避性表达");
    (regex 10 "废了|完了|凉了|没戏" "g", js "灾难化思维");
    (regex 11 "是不是该|要不要|该不该" "g", js "决策焦虑") ].

Definition STANCE_PATTERNS : list (RegExp * JsString) :=
  [ (regex 12 "我觉得.*应该" "g", js "预设结论");
    (regex 13 "明显.*更好" "g", js "预设偏好");
    (regex 14 "傻子才" "g", js "贬低选项");
    (regex 15 "谁不想" "g", js "假设普遍性") ].

(** The body shared by the two loops of [identifyEmotionalElements]:
    [const matches = text.match(pattern); if (matches) elements.push(...)]. *)
Definition pushMatches (text : JsString)
  (acc : list JsString * Store) (entry : RegExp * JsString)
  : list JsString * Store :=
  let '(elements, σ) := acc in
  let '(pattern, type) := entry in
  match String_match text pattern σ with
  | (Some matches, σ') =>
    (elements
       ++ [type ++ js "：'" ++ Array_join matches (js "', '") ++ js "'"],
     σ')
  | (None, σ') => (elements, σ')
  end.

Definition identifyEmotionalElements (text : JsString) (σ : Store)
  : list JsString * Store :=
  fold_left (pushMatches text) STANCE_PATTERNS
    (fold_left (pushMatches text) EMOTIONAL_PATTERNS ([], σ)).

(** The five literals are evaluated anew on every call and carry no g
    flag: their [test] is [RegExp_test_pure]. *)
Definition extractCoreThemes (text : JsString) : list JsString :=
  let themes := [] in
  let themes :=
    if RegExp_test_pure (regex 16 "工作|职业|转行|跳槽|offer|公司" "") text
    then themes ++ [js "职业发展"] else themes in
  let themes :=
    if RegExp_test_pure (regex 17 "出国|移民|润|国外|海外|留学" "") text
    then themes ++ [js "地理迁移"] else themes in
  let themes :=
    if RegExp_test_pure (regex 18 "读书|学习|考研|考博|学历|深造" "") text
    then themes ++ [js "教育投资"] else themes in
  let themes :=
    if RegExp_test_pure (regex 19 "投资|理财|买房|股票|创业|赚钱" "") text
    then themes ++ [js "财务决策"] else themes in
  let themes :=
    if RegExp_test_pure (regex 20 "结婚|离婚|分手|恋爱|家庭|孩子" "") text
    then themes ++ [js "人生关系"] else themes in
  match themes with
  | [] => [js "人生决策"]
  | _ => themes
  end.

(** The object literal [templates], its six entries in order. *)
Definition templates (themeStr : JsString) : list (JsString * JsString) :=
  [ (js "职业发展",
     js "在当前个人条件（技能、经验、资源）和市场环境下，不同" ++ themeStr
       ++ js "路径的长期收益与风险结构是什么？");
    (js "地理迁移",
     js "在给定个人背景、目标和约束条件下，" ++ themeStr
       ++ js "相比现状的长期价值与成本结构是什么？");
    (js "教育投资",
     js "在当前阶段进行" ++ themeStr
       ++ js "，其投入产出比和机会成本结构是什么？");
    (js "财务决策",
     themeStr ++ js "在不同情景下的风险收益分布和个人承受能力匹配度如何？");
    (js "人生关系",
     themeStr ++ js "决策涉及哪些关键变量、约束条件和不确定性？");
    (js "人生决策",
     js "该决策涉及哪些关键变量、目标、约束和不确定性因素？不同选择的结构性差异是什么？") ].

(** [obj[key]] on an association list: [None] is [undefined]. *)
Definition lookup (key : JsString) (obj : list (JsString * JsString))
  : option JsString :=
  snd <$> find (fun e => String_eqb key (fst e)) obj.

(** [templates[themes[0]] || templates["人生决策"]]: the right operand
    is taken when the left one is [undefined] or the empty string. *)
Definition generateReframedQuestion (text : JsString)
  (themes : list JsString) : JsString :=
  let themeStr := Array_join themes (js "与") in
  let fallback := default [] (lookup (js "人生决策") (templates themeStr)) in
  match head themes ≫= fun key => lookup key (templates themeStr) with
  | Some (c :: r) => c :: r
  | _ => fallback
  end.

Definition analyzeAndReframe (problemText : JsString) (σ : Store)
  : ReframedProblem.t * Store :=
  let '(emotionalElements, σ') := identifyEmotionalElements problemText σ in
  let themes := extractCoreThemes problemText in
  let reframed := generateReframedQuestion problemText themes in
  ({| ReframedProblem.original := problemText;
      ReframedProblem.reframed := reframed;
      ReframedProblem.emotionalElements := emotionalElements |}, σ').

End Reframe.

(** ** [src/analyzers/variables.ts] *)

Module Variables.

Abbreviation KeywordMap := (list (JsString * list JsString)).

Definition GOAL_KEYWORDS : KeywordMap :=
  [ (js "长期收入稳定性",
     [js "收入"; js "工资"; js "薪资"; js "赚钱"; js "财务"; js "经济"]);
    (js "职业发展空间",
     [js "发展"; js "成长"; js "晋升"; js "职业"; js "前途"; js "机会"]);
    (js "生活质量", [js "生活"; js "幸福"; js "快乐"; js "舒适"; js "自由"]);
    (js "身份与安全边际",
     [js "稳定"; js "安全"; js "保障"; js "身份"; js "绿卡"; js "永居"]);
    (js "技术/技能成长",
     [js "技术"; js "技能"; js "学习"; js "成长"; js "提升"]);
    (js "家庭和谐", [js "家庭"; js "孩子"; js "父母"; js "配偶"; js "家人"]);
    (js "社会认可", [js "地位"; js "面子"; js "认可"; js "尊重"; js "成功"]);
    (js "个人自主权",
     [js "自由"; js "自主"; js "选择"; js "控制"; js "独立"]) ].

Definition VARIABLE_KEYWORDS : KeywordMap :=
  [ (js "年龄", [js "年龄"; js "岁"; js "年纪"; js "年轻"; js "老了"]);
    (js "技能可迁移性",
     [js "技能"; js "能力"; js "经验"; js "专业"; js "技术"]);
    (js "资金储备", [js "钱"; js "存款"; js "资金"; js "积蓄"; js "财务"]);
    (js "语言能力", [js "语言"; js "英语"; js "外语"; js "口语"]);
    (js "人脉网络", [js "人脉"; js "关系"; js "朋友"; js "圈子"; js "资源"]);
    (js "行业周期", [js "行业"; js "市场"; js "经济"; js "周期"; js "风口"]);
    (js "家庭状况", [js "家庭"; js "孩子"; js "配偶"; js "父母"]);
    (js "健康状况", [js "健康"; js "身体"; js "精力"]);
    (js "学历背景", [js "学历"; js "学校"; js "专业"; js "教育"]);
    (js "工作经验", [js "经验"; js "工作"; js "履历"; js "背景"]) ].

Definition CONSTRAINT_KEYWORDS : KeywordMap :=
  [ (js "签证/政策限制",
     [js "签证"; js "政策"; js "移民"; js "绿卡"; js "身份"]);
    (js "资金约束", [js "钱不够"; js "成本"; js "费用"; js "负担不起"]);
    (js "时间窗口", [js "时间"; js "来不及"; js "年龄限制"; js "窗口期"]);
    (js "家庭责任", [js "家庭"; js "孩子"; js "父母"; js "老人"; js "照顾"]);
    (js "合同/承诺约束", [js "合同"; js "竞业"; js "违约"; js "承诺"]);
    (js "学历/资质要求", [js "学历"; js "资质"; js "证书"; js "认证"]);
    (js "语言门槛", [js "语言"; js "英语"; js "不会"]);
    (js "行业准入", [js "准入"; js "门槛"; js "资格"; js "限制"]) ].

Definition UNCERTAINTY_KEYWORDS : KeywordMap :=
  [ (js "政策变化", [js "政策"; js "法规"; js "政府"; js "制度"]);
    (js "经济周期波动",
     [js "经济"; js "市场"; js "行情"; js "周期"; js "环境"]);
    (js "行业发展趋势", [js "行业"; js "技术"; js "趋势"; js "未来"]);
    (js "个人境遇变化", [js "意外"; js "变故"; js "突发"; js "运气"]);
    (js "国际形势", [js "国际"; js "关系"; js "形势"; js "地缘"]);
    (js "技术变革",
     [js "AI"; js "技术"; js "变革"; js "替代"; js "自动化"]) ].

(** The outer loop pushes a label at the first of its keywords that the
    text includes, then breaks out of the inner loop. *)
Definition matchKeywords (text : JsString) (keywordMap : KeywordMap)
  : list JsString :=
  fold_left
    (fun matched '(label, keywords) =>
       if existsb (String_includes text) keywords
       then matched ++ [label] else matched)
    keywordMap [].

Definition getDefaultGoals : list JsString :=
  [ js "决策的长期价值最大化";
    js "风险在可承受范围内";
    js "保留调整和退出的灵活性" ].

Definition getDefaultVariables : list JsString :=
  [ js "个人能力与资源"; js "时间投入"; js "外部机会与环境" ].

Definition getDefaultConstraints : list JsString :=
  [ js "可用资源（时间、金钱、精力）的有限性"; js "信息不完整性" ].

Definition getDefaultUncertainties : list JsString :=
  [ js "外部环境变化"; js "个人境遇变化"; js "执行效果的不确定性" ].

(** [if (xs.length === 0) xs = getDefault();] *)
Definition orDefault (xs dflt : list JsString) : list JsString :=
  if (length xs =? 0)%nat then dflt else xs.

Definition analyzeVariables (reframedProblem : ReframedProblem.t)
  : VariablesAndConstraints.t :=
  let combinedText :=
    ReframedProblem.original reframedProblem ++ js " "
      ++ ReframedProblem.reframed reframedProblem in
  let goals := matchKeywords combinedText GOAL_KEYWORDS in
  let keyVariables := matchKeywords combinedText VARIABLE_KEYWORDS in
  let hardConstraints := matchKeywords combinedText CONSTRAINT_KEYWORDS in
  let uncertainties := matchKeywords combinedText UNCERTAINTY_KEYWORDS in
  let goals := orDefault goals getDefaultGoals in
  let keyVariables := orDefault keyVariables getDefaultVariables in
  let hardConstraints := orDefault hardConstraints getDefaultConstraints in
  let uncertainties := orDefault uncertainties getDefaultUncertainties in
  {| VariablesAndConstraints.goals := goals;
     VariablesAndConstraints.keyVariables := keyVariables;
     VariablesAndConstraints.hardConstraints := hardConstraints;
     VariablesAndConstraints.uncertainties := uncertainties |}.

End Variables.

(** ** [src/analyzers/strategies.ts] *)

Module Strategies.

Module Characteristics.
Record t : Type := mk {
  timing : JsString;
  riskLevel : JsString;
  resourceCommitment : JsString;
}.
End Characteristics.

Module Config.
Record t : Type := mk {
  id : JsString;
  type : StrategyType;
  typeLabel : JsString;
  nameTemplate : JsString;
  characteristics : Characteristics.t;
}.
End Config.

Definition STRATEGY_CONFIGS : list Config.t :=
  [ {| Config.id := js "A";
       Config.type := aggressive;
       Config.typeLabel := js "激进型";
       Config.nameTemplate := js "立即行动";
       Config.characteristics :=
         {| Characteristics.timing := js "立即执行";
            Characteristics.riskLevel := js "高风险高回报";
            Characteristics.resourceCommitment := js "全力投入" |} |};
    {| Config.id := js "B";
       Config.type := conservative;
       Config.typeLabel := js "保守型";
       Config.nameTemplate := js "观望等待";
       Config.characteristics :=
         {| Characteristics.timing := js "延迟执行";
            Characteristics.riskLevel := js "低风险稳健";
            Characteristics.resourceCommitment := js "保持现状" |} |};
    {| Config.id := js "C";
       Config.type := hedge;
       Config.typeLabel := js "对冲型";
       Config.nameTemplate := js "双轨并行";
       Config.characteristics :=
         {| Characteristics.timing := js "逐步推进";
            Characteristics.riskLevel := js "分散风险";
            Characteristics.resourceCommitment := js "部分投入" |} |};
    {| Config.id := js "D";
       Config.type := exit;
       Config.typeLabel := js "止损型";
       Config.nameTemplate := js "转向放弃";
       Config.characteristics :=
         {| Characteristics.timing := js "及时止损";
            Characteristics.riskLevel := js "规避风险";
            Characteristics.resourceCommitment := js "转移资源" |} |} ].

Definition generatePreconditions (config : Config.t)
  (variables : VariablesAndConstraints.t) : list JsString :=
  let preconditions := [] in
  match Config.type config with
  | aggressive =>
    let preconditions :=
      preconditions
        ++ [ js "对目标有清晰认知且决心坚定";
             js "具备基本的资源和能力基础";
             js "能够承受失败的最坏后果" ] in
    if Array_includes (VariablesAndConstraints.keyVariables variables)
         (js "资金储备")
    then preconditions ++ [js "有足够的资金支持初期投入"]
    else preconditions
  | conservative =>
    preconditions
      ++ [ js "当前状态可持续，无紧迫压力";
           js "等待期间有持续信息收集渠道";
           js "延迟行动不会导致机会永久丧失" ]
  | hedge =>
    preconditions
      ++ [ js "有精力和资源同时维护多条路径";
           js "两条路径之间不存在严重冲突";
           js "能够设定清晰的决策触发点" ]
  | exit =>
    preconditions
      ++ [ js "存在可行的替代方向";
           js "沉没成本在可接受范围内";
           js "能够理性评估而非情绪化放弃" ]
  end.

Definition generateExecutionCost (config : Config.t)
  (variables : VariablesAndConstraints.t) : JsString :=
  let costs :=
    match Config.type config with
    | aggressive =>
      [ js "时间：需要全力投入，可能持续数月至数年";
        js "资金：需要前期投入，回报周期不确定";
        js "机会成本：放弃其他可能的路径";
        js "心理成本：承受较大的不确定性压力" ]
    | conservative =>
      [ js "时间：等待期间的时间消耗";
        js "机会成本：可能错过最佳窗口期";
        js "心理成本：持续的不确定感和焦虑" ]
    | hedge =>
      [ js "精力：需要同时维护多条路径，可能分散注意力";
        js "资金：可能需要双重投入";
        js "效率损失：无法全力投入任一方向" ]
    | exit =>
      [ js "沉没成本：之前的投入可能无法回收";
        js "心理成本：需要接受'失败'或'放弃'的标签";
        js "重建成本：在新方向重新开始的投入" ]
    end in
  Array_join costs (js "；").

Definition generateTriggerPoints (config : Config.t)
  (variables : VariablesAndConstraints.t) : list JsString :=
  let triggers := [] in
  match Config.type config with
  | aggressive =>
    triggers
      ++ [js "关键资源和条件已到位"]
      ++ [js "外部环境出现有利窗口"]
      ++ [js "继续等待的成本开始超过行动风险"]
  | conservative =>
    let triggers :=
      triggers
        ++ [js "获得更多关键信息"]
        ++ [js "不确定性显著降低"]
        ++ [js "出现明确的正面或负面信号"] in
    if Array_includes (VariablesAndConstraints.uncertainties variables)
         (js "政策变化")
    then triggers ++ [js "政策环境明朗化"]
    else triggers
  | hedge =>
    triggers
      ++ [js "设定明确的时间节点进行评估"]
      ++ [js "任一路径出现决定性进展"]
      ++ [js "资源消耗达到预设阈值"]
  | exit =>
    triggers
      ++ [js "核心假设被证伪"]
      ++ [js "成本超出预设止损线"]
      ++ [js "出现更优的替代选项"]
      ++ [js "个人状况发生重大变化"]
  end.

Definition generateWorstCase (config : Config.t)
  (constraints : list JsString) : JsString :=
  match Config.type config with
  | aggressive =>
    js "全力投入后失败，损失大量时间、资金和机会成本，且难以回到原点。可能需要承受较长的恢复期。"
  | conservative =>
    js "等待期间窗口关闭，最佳时机永久错过。或者环境恶化，后续行动成本大幅上升。"
  | hedge =>
    js "两边都未能取得实质进展，资源分散导致竞争力不足。最终可能两边都失去机会。"
  | exit =>
    js "放弃后原方向意外变好，产生强烈后悔。或者新方向也不如预期，陷入'草地更绿'的循环。"
  end.

Definition generateStrategies (reframedProblem : ReframedProblem.t)
  (variables : VariablesAndConstraints.t) : StrategySpace.t :=
  let strategies :=
    map
      (fun config =>
         {| Strategy.id := Config.id config;
            Strategy.name :=
              js "策略 " ++ Config.id config ++ js "："
                ++ Config.nameTemplate config;
            Strategy.type := StrategyType_value (Config.type config);
            Strategy.typeLabel := Config.typeLabel config;
            Strategy.preconditions := generatePreconditions config variables;
            Strategy.executionCost := generateExecutionCost config variables;
            Strategy.triggerPoints := generateTriggerPoints config variables;
            Strategy.worstCase :=
              generateWorstCase config
                (VariablesAndConstraints.hardConstraints variables) |})
      STRATEGY_CONFIGS in
  {| StrategySpace.strategies := strategies |}.

End Strategies.

(** ** [src/analyzers/risk.ts] *)

Module Risk.

Module Bucket.
Record t : Type := mk {
  probability : float;
  template : JsString;
}.
End Bucket.

Module DistributionTemplate.
Record t : Type := mk {
  strategyType : JsString;
  distributions : list Bucket.t;
}.
End DistributionTemplate.

Definition DISTRIBUTION_TEMPLATES : list DistributionTemplate.t :=
  [ {| DistributionTemplate.strategyType := js "aggressive";
       DistributionTemplate.distributions :=
         [ Bucket.mk 20 (js "目标达成，收益符合或超出预期");
           Bucket.mk 35 (js "部分达成，结果低于预期但有所收获");
           Bucket.mk 30 (js "遇到较大阻力，需要调整计划或延长周期");
           Bucket.mk 15 (js "执行失败，需要承受损失并重新规划") ] |};
    {| DistributionTemplate.strategyType := js "conservative";
       DistributionTemplate.distributions :=
         [ Bucket.mk 25 (js "等待期间情况明朗，获得更好的行动时机");
           Bucket.mk 30 (js "情况未明显变化，继续处于等待状态");
           Bucket.mk 25 (js "窗口期收窄，后续行动成本上升");
           Bucket.mk 20 (js "机会丧失，需要转向其他路径") ] |};
    {| DistributionTemplate.strategyType := js "hedge";
       DistributionTemplate.distributions :=
         [ Bucket.mk 20 (js "主路径成功，备选路径平稳退出");
           Bucket.mk 35 (js "两条路径都有进展，需要做出最终选择");
           Bucket.mk 30 (js "精力分散，两条路径进展都不理想");
           Bucket.mk 15 (js "资源耗尽，被迫放弃其中一条或两条路径") ] |};
    {| DistributionTemplate.strategyType := js "exit";
       DistributionTemplate.distributions :=
         [ Bucket.mk 30 (js "成功转向，新方向发展良好");
           Bucket.mk 35 (js "转向后需要较长适应期，短期内有阵痛");
           Bucket.mk 20 (js "新方向也遇到挑战，需要再次调整");
           Bucket.mk 15 (js "产生后悔情绪，对放弃的路径念念不忘") ] |} ].

Definition adjustForUncertainties
  (distributions : list OutcomeDistribution.t)
  (uncertainties : list JsString) : list OutcomeDistribution.t :=
  let uncertaintyLevel :=
    Math_min (Number_of_nat (length uncertainties) / 4) 1 in
  imap
    (fun index d =>
       let isMiddle := (index =? 1)%nat || (index =? 2)%nat in
       let adjustment :=
         if isMiddle then (-5 * uncertaintyLevel)%float
         else (2.5 * uncertaintyLevel)%float in
       {| OutcomeDistribution.probability :=
            Math_max 5
              (Math_min 50 (OutcomeDistribution.probability d + adjustment));
          OutcomeDistribution.description :=
            OutcomeDistribution.description d |})
    distributions.

Definition normalizeProbabilities
  (distributions : list OutcomeDistribution.t)
  : list OutcomeDistribution.t :=
  let total :=
    fold_left (fun sum d => (sum + OutcomeDistribution.probability d)%float)
      distributions 0%float in
  map
    (fun d =>
       {| OutcomeDistribution.probability :=
            Math_round (OutcomeDistribution.probability d / total * 100);
          OutcomeDistribution.description :=
            OutcomeDistribution.description d |})
    distributions.

(** The distribution of a strategy whose type no template names. *)
Definition defaultDistributions : list OutcomeDistribution.t :=
  [ OutcomeDistribution.mk 25 (js "结果好于预期");
    OutcomeDistribution.mk 50 (js "结果符合预期");
    OutcomeDistribution.mk 25 (js "结果低于预期") ].

(** [DISTRIBUTION_TEMPLATES.find((t) => t.strategyType === strategy.type)] *)
Definition findTemplate (strategy : Strategy.t)
  : option DistributionTemplate.t :=
  find
    (fun t =>
       String_eqb (DistributionTemplate.strategyType t)
         (Strategy.type strategy))
    DISTRIBUTION_TEMPLATES.

(** The callback that [analyzeRisk] maps over the strategies. *)
Definition analyzeStrategy (variables : VariablesAndConstraints.t)
  (strategy : Strategy.t) : RiskRewardAnalysis.t :=
  match findTemplate strategy with
  | None =>
    {| RiskRewardAnalysis.strategyId := Strategy.id strategy;
       RiskRewardAnalysis.strategyName := Strategy.name strategy;
       RiskRewardAnalysis.distributions := defaultDistributions |}
  | Some template =>
    let distributions :=
      map
        (fun d =>
           {| OutcomeDistribution.probability := Bucket.probability d;
              OutcomeDistribution.description := Bucket.template d |})
        (DistributionTemplate.distributions template) in
    let distributions :=
      adjustForUncertainties distributions
        (VariablesAndConstraints.uncertainties variables) in
    let distributions := normalizeProbabilities distributions in
    {| RiskRewardAnalysis.strategyId := Strategy.id strategy;
       RiskRewardAnalysis.strategyName := Strategy.name strategy;
       RiskRewardAnalysis.distributions := distributions |}
  end.

Definition analyzeRisk (strategySpace : StrategySpace.t)
  (variables : VariablesAndConstraints.t) : list RiskRewardAnalysis.t :=
  map (analyzeStrategy variables) (StrategySpace.strategies strategySpace).

End Risk.

(** ** [src/analyzers/bias.ts] *)

Module Bias.

#[global] Instance BiasType_eq_dec : EqDecision BiasType.
Proof. solve_decision. Defined.

Definition BiasType_code (ty : BiasType) : nat :=
  match ty with
  | survivorship => 0
  | narrative => 1
  | groupPressure => 2
  | shortTermFocus => 3
  | confirmationBias => 4
  | anchoringBias => 5
  | sunkCostFallacy => 6
  | other => 7
  end.

Definition BiasType_of_code (n : nat) : option BiasType :=
  match n with
  | 0 => Some survivorship
  | 1 => Some narrative
  | 2 => Some groupPressure
  | 3 => Some shortTermFocus
  | 4 => Some confirmationBias
  | 5 => Some anchoringBias
  | 6 => Some sunkCostFallacy
  | 7 => Some other
  | _ => None
  end.

#[global] Program Instance BiasType_countable : Countable BiasType :=
  inj_countable BiasType_code BiasType_of_code _.
Next Obligation. by intros []. Qed.

Module BiasRule.
Record t : Type := mk {
  type : BiasType;
  typeLabel : JsString;
  patterns : list RegExp;
  description : JsString;
  mitigation : JsString;
}.
End BiasRule.

(** The patterns carry no flag: RegExp objects 21 to 69. *)
Definition BIAS_RULES : list BiasRule.t :=
  [ {| BiasRule.type := survivorship;
       BiasRule.typeLabel := js "幸存者偏差";
       BiasRule.patterns :=
         [ regex 21 "别人.*成功" "";
           regex 22 "有人.*做到" "";
           regex 23 "朋友.*实现" "";
           regex 24 "看到.*案例" "";
           regex 25 "成功.*例子" "";
           regex 26 "XXX都能" "";
           regex 27 "人家都" "" ];
       BiasRule.description :=
         js "可能将个别成功案例误认为普遍路径，忽视了大量未能成功的案例";
       BiasRule.mitigation :=
         js "建议：主动寻找失败案例，了解失败的原因和概率。关注基础率而非个案。" |};
    {| BiasRule.type := narrative;
       BiasRule.typeLabel := js "叙事谬误";
       BiasRule.patterns :=
         [ regex 28 "听说" "";
           regex 29 "据说" "";
           regex 30 "有个故事" "";
           regex 31 "看了.*文章" "";
           regex 32 "网上说" "";
           regex 33 "大V说" "";
           regex 34 "博主" "";
           regex 35 "up主" "" ];
       BiasRule.description :=
         js "可能被故事和叙事影响决策，而非基于数据和系统性分析";
       BiasRule.mitigation :=
         js "建议：区分故事和数据，寻找系统性的统计信息。警惕情绪化的成功学叙事。" |};
    {| BiasRule.type := groupPressure;
       BiasRule.typeLabel := js "群体压力";
       BiasRule.patterns :=
         [ regex 36 "大家都" "";
           regex 37 "别人都" "";
           regex 38 "身边.*都" "";
           regex 39 "朋友都" "";
           regex 40 "同事都" "";
           regex 41 "同龄人" "";
           regex 42 "周围.*人" "";
           regex 43 "趋势" "";
           regex 44 "风口" "" ];
       BiasRule.description :=
         js "可能因为'大家都这样做'而产生跟风冲动，忽视了个人条件的差异性";
       BiasRule.mitigation :=
         js "建议：明确自己的独特条件和目标，不同人适合不同路径。避免为了'不落后'而盲目跟风。" |};
    {| BiasRule.type := shortTermFocus;
       BiasRule.typeLabel := js "短期聚焦偏差";
       BiasRule.patterns :=
         [ regex 45 "马上" "";
           regex 46 "立刻" "";
           regex 47 "赶紧" "";
           regex 48 "来不及" "";
           regex 49 "错过" "";
           regex 50 "最后.*机会" "";
           regex 51 "窗口.*关闭" "";
           regex 52 "再不.*就" "" ];
       BiasRule.description :=
         js "可能过度关注短期结果和紧迫感，而忽视长期结构性因素";
       BiasRule.mitigation :=
         js "建议：拉长时间维度思考，区分'真紧迫'和'假紧迫'。多数人生决策的影响是长期的。" |};
    {| BiasRule.type := confirmationBias;
       BiasRule.typeLabel := js "确认偏差";
       BiasRule.patterns :=
         [ regex 53 "我觉得.*应该" "";
           regex 54 "我认为.*对" "";
           regex 55 "明显.*更好" "";
           regex 56 "肯定是" "";
           regex 57 "毫无疑问" "";
           regex 58 "怎么看都" "" ];
       BiasRule.description :=
         js "可能只关注支持已有观点的信息，忽视或贬低相反的证据";
       BiasRule.mitigation :=
         js "建议：主动寻找反对意见，尝试论证相反立场。问自己：'什么情况下我会改变想法？'" |};
    {| BiasRule.type := anchoringBias;
       BiasRule.typeLabel := js "锚定效应";
       BiasRule.patterns :=
         [ regex 59 "一开始" "";
           regex 60 "最初" "";
           regex 61 "第一.*想法" "";
           regex 62 "本来以为" "";
           regex 63 "原本.*计划" "" ];
       BiasRule.description :=
         js "可能过度依赖最初获得的信息或第一印象，难以根据新信息调整判断";
       BiasRule.mitigation :=
         js "建议：定期重新评估假设，考虑如果从零开始会怎么选择。避免被沉没成本影响。" |};
    {| BiasRule.type := sunkCostFallacy;
       BiasRule.typeLabel := js "沉没成本谬误";
       BiasRule.patterns :=
         [ regex 64 "已经.*投入" "";
           regex 65 "花了.*时间" "";
           regex 66 "付出.*努力" "";
           regex 67 "不能.*白费" "";
           regex 68 "坚持.*这么久" "";
           regex 69 "放弃.*可惜" "" ];
       BiasRule.description :=
         js "可能因为已经投入的成本而坚持错误方向，无法理性止损";
       BiasRule.mitigation :=
         js "建议：关注未来的成本和收益，而非过去的投入。问自己：'如果重新选择，还会这样做吗？'" |} ].

Definition EMOTIONAL_BIAS_MAP : list (JsString * BiasType) :=
  [ (js "群体压力", groupPressure);
    (js "紧迫感假设", shortTermFocus);
    (js "竞争焦虑", groupPressure);
    (js "预设结论", confirmationBias);
    (js "预设偏好", confirmationBias) ].

(** The loops of this module carry the array being filled and the
    [Set<BiasType>] of the types seen so far. *)
Abbreviation Acc := (list CognitiveBias.t * gset BiasType)%type.

(** A rule fires at the first of its patterns that matches; the inner
    loop then breaks. *)
Definition fires (text : JsString) (rule : BiasRule.t) : bool :=
  existsb (fun pattern => RegExp_test_pure pattern text)
    (BiasRule.patterns rule).

Definition detectStep (text : JsString) (acc : Acc) (rule : BiasRule.t)
  : Acc :=
  let '(biases, detectedTypes) := acc in
  if decide (BiasRule.type rule ∈ detectedTypes) then acc
  else if fires text rule then
    (biases
       ++ [ {| CognitiveBias.type := BiasRule.type rule;
               CognitiveBias.typeLabel := BiasRule.typeLabel rule;
               CognitiveBias.description := BiasRule.description rule;
               CognitiveBias.mitigation := BiasRule.mitigation rule |} ],
     {[ BiasRule.type rule ]} ∪ detectedTypes)
  else acc.

Definition detectBiasesFromText (text : JsString) : list CognitiveBias.t :=
  fst (fold_left (detectStep text) BIAS_RULES ([], ∅)).

(** The inner loop body of [inferBiasesFromEmotions]. *)
Definition inferStep (element : JsString) (acc : Acc)
  (entry : JsString * BiasType) : Acc :=
  let '(biases, detectedTypes) := acc in
  let '(keyword, biasType) := entry in
  if String_includes element keyword
     && negb (bool_decide (biasType ∈ detectedTypes))
  then
    let detectedTypes := {[ biasType ]} ∪ detectedTypes in
    match
      find (fun r => bool_decide (BiasRule.type r = biasType)) BIAS_RULES
    with
    | Some rule =>
      (biases
         ++ [ {| CognitiveBias.type := BiasRule.type rule;
                 CognitiveBias.typeLabel := BiasRule.typeLabel rule;
                 CognitiveBias.description :=
                   js "从表述中检测到：" ++ element;
                 CognitiveBias.mitigation := BiasRule.mitigation rule |} ],
       detectedTypes)
    | None => (biases, detectedTypes)
    end
  else acc.

Definition inferBiasesFromEmotions (emotionalElements : list JsString)
  : list CognitiveBias.t :=
  fst
    (fold_left
       (fun acc element => fold_left (inferStep element) EMOTIONAL_BIAS_MAP acc)
       emotionalElements ([], ∅)).

(** The loop body of the merge in [analyzeBias]. *)
Definition mergeStep (acc : Acc) (bias : CognitiveBias.t) : Acc :=
  let '(allBiases, detectedTypes) := acc in
  if negb (bool_decide (CognitiveBias.type bias ∈ detectedTypes)) then
    (allBiases ++ [bias], {[ CognitiveBias.type bias ]} ∪ detectedTypes)
  else acc.

(** The generic reminder pushed when nothing was detected. *)
Definition genericReminder : CognitiveBias.t :=
  {| CognitiveBias.type := other;
     CognitiveBias.typeLabel := js "通用提醒";
     CognitiveBias.description := js "未检测到明显的认知偏差，但请保持警惕";
     CognitiveBias.mitigation :=
       js "建议：定期反思自己的假设和推理过程，寻求不同视角的意见。" |}.

Definition analyzeBias (reframedProblem : ReframedProblem.t)
  : BiasWarnings.t :=
  let textBiases :=
    detectBiasesFromText (ReframedProblem.original reframedProblem) in
  let emotionBiases :=
    inferBiasesFromEmotions
      (ReframedProblem.emotionalElements reframedProblem) in
  let allBiases := textBiases in
  let detectedTypes : gset BiasType :=
    list_to_set (map CognitiveBias.type textBiases) in
  let allBiases :=
    fst (fold_left mergeStep emotionBiases (allBiases, detectedTypes)) in
  let allBiases :=
    if (length allBiases =? 0)%nat then allBiases ++ [genericReminder]
    else allBiases in
  {| BiasWarnings.biases := allBiases |}.

End Bias.

(** ** [src/tools/analyze-decision.ts] *)

Module Tool.

Definition analyzeDecision (problemText : JsString) (σ : Store)
  : DecisionAnalysis.t * Store :=
  let '(reframedProblem, σ') := Reframe.analyzeAndReframe problemText σ in
  let variablesAndConstraints := Variables.analyzeVariables reframedProblem in
  let strategySpace :=
    Strategies.generateStrategies reframedProblem variablesAndConstraints in
  let riskRewardAnalysis :=
    Risk.analyzeRisk strategySpace variablesAndConstraints in
  let biasWarnings := Bias.analyzeBias reframedProblem in
  ({| DecisionAnalysis.reframedProblem := reframedProblem;
      DecisionAnalysis.variablesAndConstraints := variablesAndConstraints;
      DecisionAnalysis.strategySpace := strategySpace;
      DecisionAnalysis.riskRewardAnalysis := riskRewardAnalysis;
      DecisionAnalysis.biasWarnings := biasWarnings |}, σ').

End Tool.

(** ** The report ([formatAnalysisResult] and the [analyze_decision] tool)

    The second half of [src/tools/analyze-decision.ts] and the handler
    that [src/index.ts] registers, as [docs/architecture.md] gives them. *)

Module Report.

(** *** Builtins of the report *)

(** [Math.floor(x)]: NaN, the infinities, the zeros and the integers are
    returned unchanged. *)
Definition Math_floor (x : float) : float :=
  match Prim2SF x with
  | S754_finite s m e =>
    if (0 <=? e)%Z then x
    else
      let n := (cond_Zopp s (Z.pos m) / 2 ^ (- e))%Z in
      if (n =? 0)%Z then zero else Number_of_Z n
  | _ => x
  end.

(** ToIntegerOrInfinity(x): NaN and the zeros give 0, a finite number is
    truncated towards zero. *)
Inductive IntegerOrInfinity : Type :=
  | Integer (n : Z)
  | PlusInfinity
  | MinusInfinity.

Definition ToIntegerOrInfinity (x : float) : IntegerOrInfinity :=
  match Prim2SF x with
  | S754_nan => Integer 0
  | S754_zero _ => Integer 0
  | S754_infinity false => PlusInfinity
  | S754_infinity true => MinusInfinity
  | S754_finite s m e =>
    Integer
      (cond_Zopp s
         (if (0 <=? e)%Z then Z.pos m * 2 ^ e else Z.pos m / 2 ^ (- e)))
  end.

(** The exceptions of this code: the RangeError that [repeat] throws for
    the count it was given. *)
Inductive Exn : Type :=
  | RangeError (count : float).

(** A computation that returns or throws. *)
Inductive Result (A : Type) : Type :=
  | Throw (e : Exn)
  | Return (a : A).

#[global] Arguments Throw {A} e.
#[global] Arguments Return {A} a.

Definition bind {A B : Type} (m : Result A) (f : A -> Result B) : Result B :=
  match m with
  | Throw e => Throw e
  | Return a => f a
  end.


(** [s.repeat(count)]: a RangeError when the count is negative or
    +Infinity. *)
Definition String_repeat (s : JsString) (count : float) : Result JsString :=
  match ToIntegerOrInfinity count with
  | Integer n =>
    if (n <? 0)%Z then Throw (RangeError count)
    else Return (concat (repeat s (Z.to_nat n)))
  | PlusInfinity => Throw (RangeError count)
  | MinusInfinity => Throw (RangeError count)
  end.

(** [s.padStart(maxLength)], the filler being a space. *)
Definition String_padStart (s : JsString) (maxLength : nat) : JsString :=
  if (maxLength <=? length s)%nat then s
  else repeat 32%N (maxLength - length s) ++ s.


Section Engine.

(** Number.prototype.toString, and the message that the engine gives an
    exception, are left to the engine. *)
Variable Number_toString : float -> JsString.
Variable Error_message : Exn -> JsString.

(** The body of the innermost loop of section 4: one line per bucket. *)
Definition formatDistribution (dist : OutcomeDistribution.t)
  : Result JsString :=
  bind
    (String_repeat (js "█")
       (Math_floor (OutcomeDistribution.probability dist / 5)))
    (fun bar =>
       Return
         (String_padStart
            (Number_toString (OutcomeDistribution.probability dist)) 2
            ++ js "% " ++ bar ++ js " "
            ++ OutcomeDistribution.description dist)).







End Engine.

End Report.

(** * Vocabulary of the properties

    Definitions that follow the words of the specification, to be
    compared with the code above. *)

Module Spec.

(** A dimension has zero matches on [text] when no keyword of any of its
    labels occurs in [text]. *)
Definition zeroMatches (text : JsString) (keywordMap : Variables.KeywordMap)
  : bool :=
  forallb
    (fun entry => forallb (fun k => negb (String_includes text k)) (snd entry))
    keywordMap.

(** The warning a rule of the table yields when it fires on the text. *)
Definition warningOf (rule : Bias.BiasRule.t) : CognitiveBias.t :=
  {| CognitiveBias.type := Bias.BiasRule.type rule;
     CognitiveBias.typeLabel := Bias.BiasRule.typeLabel rule;
     CognitiveBias.description := Bias.BiasRule.description rule;
     CognitiveBias.mitigation := Bias.BiasRule.mitigation rule |}.

(** The text matches none of the patterns of the rule table. *)
Definition noPatternMatches (text : JsString) : bool :=
  forallb
    (fun rule =>
       forallb (fun pattern => negb (RegExp_test_pure pattern text))
         (Bias.BiasRule.patterns rule))
    Bias.BIAS_RULES.

(** What the loops of [inferBiasesFromEmotions] maintain: the types of
    the warnings are distinct, recorded in the set, and those of rules. *)
Definition inferInv (st : Bias.Acc) : Prop :=
  NoDup (map CognitiveBias.type st.1)
  /\ (forall b, b ∈ st.1 -> CognitiveBias.type b ∈ st.2)
  /\ (forall b, b ∈ st.1 ->
        CognitiveBias.type b ∈ map Bias.BiasRule.type Bias.BIAS_RULES).

(** The topic keyword groups of the Reframer, in test order: career,
    relocation, education, finance, relationships. *)
Definition careerKeywords : list JsString :=
  [js "工作"; js "职业"; js "转行"; js "跳槽"; js "offer"; js "公司"].
Definition relocationKeywords : list JsString :=
  [js "出国"; js "移民"; js "润"; js "国外"; js "海外"; js "留学"].
Definition educationKeywords : list JsString :=
  [js "读书"; js "学习"; js "考研"; js "考博"; js "学历"; js "深造"].
Definition financeKeywords : list JsString :=
  [js "投资"; js "理财"; js "买房"; js "股票"; js "创业"; js "赚钱"].
Definition relationshipKeywords : list JsString :=
  [js "结婚"; js "离婚"; js "分手"; js "恋爱"; js "家庭"; js "孩子"].

Definition THEME_GROUPS : list (JsString * list JsString) :=
  [ (js "职业发展", careerKeywords);
    (js "地理迁移", relocationKeywords);
    (js "教育投资", educationKeywords);
    (js "财务决策", financeKeywords);
    (js "人生关系", relationshipKeywords) ].

(** The generic theme of a text that matches no group. *)
Definition genericTheme : JsString := js "人生决策".

(** The labels of all the groups that have a keyword in the text. *)
Definition matchingThemes (text : JsString) : list JsString :=
  map fst
    (List.filter (fun g => existsb (String_includes text) (snd g))
       THEME_GROUPS).

(** The themes of a text: those that match, or the generic one alone. *)
Definition themesOf (text : JsString) : list JsString :=
  match matchingThemes text with
  | [] => [genericTheme]
  | themes => themes
  end.

(** The single core theme of the specification: the first group that
    matches, or the generic theme. *)
Definition firstTheme (text : JsString) : JsString :=
  hd genericTheme (matchingThemes text).

(** The fixed template keyed by [theme], with [label] substituted. *)
Definition templateOf (theme label : JsString) : JsString :=
  default [] (Reframe.lookup theme (Reframe.templates label)).

(** The reframed question as the specification words it: the template of
    the core theme with that theme's label substituted. *)
Definition claimedReframed (text : JsString) : JsString :=
  templateOf (firstTheme text) (firstTheme text).

(** The uncertainty level of the Risk Analyzer: [min(count / 4, 1)]. *)
Definition uncertaintyLevel (uncertaintyCount : nat) : float :=
  Math_min (Number_of_nat uncertaintyCount / 4) 1.

(** Clamping of a number into [[lo, hi]]. *)
Definition clamp (lo hi x : float) : float :=
  if (x <? lo)%float then lo else if (hi <? x)%float then hi else x.

(** The uncertainty adjustment as the specification words it: the buckets
    at index 1 and 2 lose [5 * level], every other bucket gains
    [2.5 * level], and each result is clamped into [[5, 50]]. *)
Definition adjusted (distributions : list OutcomeDistribution.t)
  (uncertaintyCount : nat) : list OutcomeDistribution.t :=
  let level := uncertaintyLevel uncertaintyCount in
  imap
    (fun index d =>
       let p := OutcomeDistribution.probability d in
       {| OutcomeDistribution.probability :=
            clamp 5 50
              (if decide (index = 1 \/ index = 2)
               then (p - 5 * level)%float
               else (p + 2.5 * level)%float);
          OutcomeDistribution.description :=
            OutcomeDistribution.description d |})
    distributions.

(** The sum of the probabilities of a distribution. *)
Definition sumOfProbabilities (distributions : list OutcomeDistribution.t)
  : float :=
  fold_left (fun sum d => (sum + OutcomeDistribution.probability d)%float)
    distributions 0%float.

(** The numbers 5 and 50 as sign, mantissa and exponent. *)
Definition five : spec_float := S754_finite false 5629499534213120 (-50).
Definition fifty : spec_float := S754_finite false 7036874417766400 (-47).


(** An emotional element of [text] for a label: the label, then the
    matches of the label's pattern, pieces of the text, in quotes. *)
Definition elementOf (text element label : JsString) : Prop :=
  exists matches : list JsString,
    element
    = label ++ js "：'" ++ Array_join matches (js "', '") ++ js "'"
    /\ (0 < length matches)%nat
    /\ Forall (fun m => String_includes text m = true) matches.

End Spec.

(** * Properties *)

(** ** Strategy generation *)

Section StrategyGeneration.

Import Strategies.

Variable reframedProblem : ReframedProblem.t.
Variable variables : VariablesAndConstraints.t.

Let strategies : list Strategy.t :=
  StrategySpace.strategies (generateStrategies reframedProblem variables).

(** C3.  Whatever the input, [generateStrategies] returns four strategies:
    A aggressive, B conservative, C hedge, D exit, in that order, so that
    no id and no type occurs twice. *)
Theorem generateStrategies_complete :
  map (fun s => (Strategy.id s, Strategy.type s)) strategies
    = [ (js "A", js "aggressive"); (js "B", js "conservative");
        (js "C", js "hedge"); (js "D", js "exit") ]
  /\ length strategies = 4
  /\ NoDup (map Strategy.id strategies)
  /\ NoDup (map Strategy.type strategies).
Proof.
  subst strategies. unfold generateStrategies. cbn [StrategySpace.strategies].
  rewrite !map_map. cbn [map STRATEGY_CONFIGS Config.id Config.type
    Strategy.id Strategy.type StrategyType_value length].
  repeat split.
  - apply (bool_decide_unpack _). vm_compute. reflexivity.
  - apply (bool_decide_unpack _). vm_compute. reflexivity.
Qed.

(** C10.  The conditional extras are specific to one strategy type each:
    only the aggressive strategy's preconditions depend on the variables
    (a fourth one when "资金储备" is a key variable), and only the
    conservative strategy's trigger points depend on the uncertainties (a
    fourth one when "政策变化" is among them); hedge has three of each,
    exit three preconditions and four trigger points. *)
Theorem conditional_extras_by_type :
  map
    (fun s =>
       (Strategy.type s,
        length (Strategy.preconditions s),
        length (Strategy.triggerPoints s)))
    strategies
  = [ (js "aggressive",
       if Array_includes (VariablesAndConstraints.keyVariables variables)
            (js "资金储备")
       then 4 else 3,
       3);
      (js "conservative",
       3,
       if Array_includes (VariablesAndConstraints.uncertainties variables)
            (js "政策变化")
       then 4 else 3);
      (js "hedge", 3, 3);
      (js "exit", 3, 4) ].
Proof.
  subst strategies. unfold generateStrategies. cbn [StrategySpace.strategies].
  rewrite map_map.
  cbn [map STRATEGY_CONFIGS Config.type Strategy.type Strategy.preconditions
    Strategy.triggerPoints StrategyType_value generatePreconditions
    generateTriggerPoints].
  destruct (Array_includes (VariablesAndConstraints.keyVariables variables) _),
    (Array_includes (VariablesAndConstraints.uncertainties variables) _);
    reflexivity.
Qed.

End StrategyGeneration.

(** ** Variable extraction *)

Section VariableExtraction.

Import Variables Spec.

(** The loop of [matchKeywords] keeps, in the order of the table, the
    labels that have a keyword in the text. *)
Lemma matchKeywords_filter (text : JsString) (keywordMap : KeywordMap) :
  matchKeywords text keywordMap
  = map fst
      (List.filter (fun entry => existsb (String_includes text) (snd entry))
         keywordMap).
Proof.
  unfold matchKeywords.
  enough (H : forall acc,
    fold_left
      (fun matched '(label, keywords) =>
         if existsb (String_includes text) keywords
         then matched ++ [label] else matched)
      keywordMap acc
    = acc ++ map fst
        (List.filter (fun entry => existsb (String_includes text) (snd entry))
           keywordMap)) by apply (H []).
  induction keywordMap as [|[label keywords] m IH]; intros acc; cbn.
  - by rewrite app_nil_r.
  - rewrite IH. destruct (existsb _ keywords); cbn; [|done].
    by rewrite <- app_assoc.
Qed.

Lemma zeroMatches_true (text : JsString) (keywordMap : KeywordMap) :
  zeroMatches text keywordMap = true -> matchKeywords text keywordMap = [].
Proof.
  rewrite matchKeywords_filter. unfold zeroMatches.
  induction keywordMap as [|[label keywords] m IH]; cbn; [done|].
  intros [Hk Hm]%andb_true_iff.
  replace (existsb (String_includes text) keywords) with false; [auto|].
  symmetry. apply not_true_is_false. intros (k & Hin & Hk')%existsb_exists.
  rewrite forallb_forall in Hk. specialize (Hk k Hin). by rewrite Hk' in Hk.
Qed.

Lemma zeroMatches_false (text : JsString) (keywordMap : KeywordMap) :
  zeroMatches text keywordMap = false ->
  (0 < length (matchKeywords text keywordMap))%nat.
Proof.
  rewrite matchKeywords_filter. unfold zeroMatches.
  induction keywordMap as [|[label keywords] m IH]; cbn; [done|].
  intros [Hk|Hm]%andb_false_iff.
  - replace (existsb (String_includes text) keywords) with true; [cbn; lia|].
    symmetry. clear IH. induction keywords as [|k ks IHk]; cbn in *; [done|].
    destruct (String_includes text k); cbn in *; auto.
  - destruct (existsb _ keywords); cbn; [lia|auto].
Qed.

Lemma orDefault_zeroMatches (text : JsString) (keywordMap : KeywordMap)
  (dflt : list JsString) :
  orDefault (matchKeywords text keywordMap) dflt
  = if zeroMatches text keywordMap then dflt
    else matchKeywords text keywordMap.
Proof.
  unfold orDefault. destruct (zeroMatches text keywordMap) eqn:Hz.
  - by rewrite (zeroMatches_true _ _ Hz).
  - apply zeroMatches_false in Hz.
    destruct (matchKeywords text keywordMap); cbn in *; [lia|done].
Qed.

Lemma orDefault_nonempty (xs dflt : list JsString) :
  (0 < length dflt)%nat -> (0 < length (orDefault xs dflt))%nat.
Proof. unfold orDefault. destruct xs; cbn; [done|lia]. Qed.

(** C4.  Each of the four lists of [analyzeVariables] is non-empty, and a
    dimension is either the labels its keywords matched in the combined
    text, or, when nothing matched, exactly its default list. *)
Theorem analyzeVariables_nonempty_defaults (r : ReframedProblem.t) :
  let text :=
    ReframedProblem.original r ++ js " " ++ ReframedProblem.reframed r in
  let v := analyzeVariables r in
  ((0 < length (VariablesAndConstraints.goals v))%nat
   /\ (0 < length (VariablesAndConstraints.keyVariables v))%nat
   /\ (0 < length (VariablesAndConstraints.hardConstraints v))%nat
   /\ (0 < length (VariablesAndConstraints.uncertainties v))%nat)
  /\ VariablesAndConstraints.goals v
     = (if zeroMatches text GOAL_KEYWORDS then getDefaultGoals
        else matchKeywords text GOAL_KEYWORDS)
  /\ VariablesAndConstraints.keyVariables v
     = (if zeroMatches text VARIABLE_KEYWORDS then getDefaultVariables
        else matchKeywords text VARIABLE_KEYWORDS)
  /\ VariablesAndConstraints.hardConstraints v
     = (if zeroMatches text CONSTRAINT_KEYWORDS then getDefaultConstraints
        else matchKeywords text CONSTRAINT_KEYWORDS)
  /\ VariablesAndConstraints.uncertainties v
     = (if zeroMatches text UNCERTAINTY_KEYWORDS then getDefaultUncertainties
        else matchKeywords text UNCERTAINTY_KEYWORDS).
Proof.
  intros text v. subst v. unfold analyzeVariables. fold text.
  cbn [VariablesAndConstraints.goals VariablesAndConstraints.keyVariables
    VariablesAndConstraints.hardConstraints
    VariablesAndConstraints.uncertainties].
  split; [|rewrite !orDefault_zeroMatches; done].
  repeat split; apply orDefault_nonempty; cbn; lia.
Qed.

End VariableExtraction.

(** ** Strings *)

Section Strings.

Lemma String_eqb_eq (a b : JsString) : String_eqb a b = true <-> a = b.
Proof.
  revert b. induction a as [|x a IH]; intros [|y b]; cbn; try done.
  rewrite andb_true_iff, N.eqb_eq, IH. split; [intros []|intros [=]]; by subst.
Qed.

Lemma String_eqb_refl (a : JsString) : String_eqb a a = true.
Proof. by apply String_eqb_eq. Qed.

Lemma String_eqb_neq (a b : JsString) : String_eqb a b = false <-> a <> b.
Proof.
  rewrite <- String_eqb_eq. by destruct (String_eqb a b).
Qed.

End Strings.

(** ** Template lookup of the risk analyzer *)

Section TemplateLookup.

Import Risk.

Lemma findTemplate_absent (s : Strategy.t) :
  Strategy.type s ∉ map DistributionTemplate.strategyType DISTRIBUTION_TEMPLATES ->
  findTemplate s = None.
Proof.
  unfold findTemplate. induction DISTRIBUTION_TEMPLATES as [|t ts IH]; cbn;
    [done|].
  intros [Hne Hts]%not_elem_of_cons.
  replace (String_eqb (DistributionTemplate.strategyType t) (Strategy.type s))
    with false; [auto|].
  symmetry. apply String_eqb_neq. congruence.
Qed.

Lemma findTemplate_generated (r : ReframedProblem.t)
  (v : VariablesAndConstraints.t) :
  Forall (fun s => is_Some (findTemplate s))
    (StrategySpace.strategies (Strategies.generateStrategies r v)).
Proof.
  unfold Strategies.generateStrategies. cbn [StrategySpace.strategies].
  rewrite Forall_map. unfold findTemplate. cbn [Strategy.type].
  repeat constructor; vm_compute; eauto.
Qed.

(** C9.  Every strategy that [generateStrategies] produces has a template,
    so on its output, and hence in the pipeline, [analyzeRisk] never takes
    the default branch; a strategy whose type no template names gets
    exactly the generic 25/50/25 distribution, with its own id and name. *)
Theorem default_distribution_only_for_unknown_type :
  (forall r v,
     Forall (fun s => is_Some (findTemplate s))
       (StrategySpace.strategies (Strategies.generateStrategies r v)))
  /\ (forall problemText σ,
        Forall (fun s => is_Some (findTemplate s))
          (StrategySpace.strategies
             (DecisionAnalysis.strategySpace
                (Tool.analyzeDecision problemText σ).1)))
  /\ (forall strategySpace variables i s,
        StrategySpace.strategies strategySpace !! i = Some s ->
        Strategy.type s
          ∉ map DistributionTemplate.strategyType DISTRIBUTION_TEMPLATES ->
        analyzeRisk strategySpace variables !! i
        = Some
            {| RiskRewardAnalysis.strategyId := Strategy.id s;
               RiskRewardAnalysis.strategyName := Strategy.name s;
               RiskRewardAnalysis.distributions :=
                 [ OutcomeDistribution.mk 25 (js "结果好于预期");
                   OutcomeDistribution.mk 50 (js "结果符合预期");
                   OutcomeDistribution.mk 25 (js "结果低于预期") ] |}).
Proof.
  split; [apply findTemplate_generated|]. split.
  { intros problemText σ. unfold Tool.analyzeDecision.
    destruct (Reframe.analyzeAndReframe problemText σ) as [r σ'].
    apply findTemplate_generated. }
  intros sp v i s Hi Habs. unfold analyzeRisk.
  rewrite list_lookup_fmap, Hi.
  change (Some (analyzeStrategy v s) = Some (RiskRewardAnalysis.mk
    (Strategy.id s) (Strategy.name s) defaultDistributions)).
  unfold analyzeStrategy. by rewrite (findTemplate_absent _ Habs).
Qed.

(** A strategy of type "speculative", handed to [analyzeRisk] directly. *)
Lemma default_distribution_witness :
  let s :=
    {| Strategy.id := js "E"; Strategy.name := js "策略 E";
       Strategy.type := js "speculative"; Strategy.typeLabel := [];
       Strategy.preconditions := []; Strategy.executionCost := [];
       Strategy.triggerPoints := []; Strategy.worstCase := [] |} in
  analyzeRisk {| StrategySpace.strategies := [s] |}
    (VariablesAndConstraints.mk [] [] [] []) !! 0
  = Some
      {| RiskRewardAnalysis.strategyId := js "E";
         RiskRewardAnalysis.strategyName := js "策略 E";
         RiskRewardAnalysis.distributions :=
           [ OutcomeDistribution.mk 25 (js "结果好于预期");
             OutcomeDistribution.mk 50 (js "结果符合预期");
             OutcomeDistribution.mk 25 (js "结果低于预期") ] |}.
Proof.
  intros s.
  apply (proj2 (proj2 default_distribution_only_for_unknown_type)
           {| StrategySpace.strategies := [s] |}
           (VariablesAndConstraints.mk [] [] [] []) 0 s).
  - reflexivity.
  - apply (bool_decide_unpack _). vm_compute. reflexivity.
Defined.

End TemplateLookup.

(** ** Bias detection *)

Section BiasDetection.

Import Bias Spec.

Implicit Types (acc : list CognitiveBias.t) (det : gset BiasType).

Lemma BIAS_RULES_types :
  map BiasRule.type BIAS_RULES
  = [ survivorship; narrative; groupPressure; shortTermFocus;
      confirmationBias; anchoringBias; sunkCostFallacy ].
Proof. reflexivity. Qed.

Lemma BIAS_RULES_NoDup : NoDup (map BiasRule.type BIAS_RULES).
Proof.
  rewrite BIAS_RULES_types. apply (bool_decide_unpack _). vm_compute.
  reflexivity.
Qed.

(** *** Scanning the text *)

Lemma detect_fold (text : JsString) (rules : list BiasRule.t) acc det :
  NoDup (map BiasRule.type rules) ->
  (forall rule, rule ∈ rules -> BiasRule.type rule ∉ det) ->
  fold_left (detectStep text) rules (acc, det)
  = (acc ++ map warningOf (List.filter (fires text) rules),
     list_to_set (map BiasRule.type (List.filter (fires text) rules)) ∪ det).
Proof.
  revert acc det. induction rules as [|rule rules IH]; intros acc det Hnd Hdet.
  - cbn. by rewrite app_nil_r, (left_id_L ∅ (∪)).
  - cbn [map] in Hnd. apply NoDup_cons in Hnd as [Hrule Hnd].
    cbn [fold_left List.filter]. unfold detectStep at 2.
    destruct (decide (BiasRule.type rule ∈ det)) as [Hin|_].
    { exfalso. apply (Hdet rule); [left|done]. }
    destruct (fires text rule) eqn:Hf.
    + rewrite IH; [|done|].
      * cbn [map list_to_set]. rewrite <- app_assoc. f_equal.
        rewrite (assoc_L (∪)). f_equal. apply (comm_L (∪)).
      * intros rule' Hin'. apply not_elem_of_union. split.
        -- intros Heq%elem_of_singleton. apply Hrule. rewrite <- Heq.
           by apply list_elem_of_In, in_map, list_elem_of_In.
        -- apply Hdet. by right.
    + apply IH; [done|]. intros rule' Hin'. apply Hdet. by right.
Qed.

Lemma detectBiasesFromText_filter (text : JsString) :
  detectBiasesFromText text
  = map warningOf (List.filter (fires text) BIAS_RULES).
Proof.
  unfold detectBiasesFromText.
  rewrite detect_fold; [done|apply BIAS_RULES_NoDup|].
  intros rule _. apply not_elem_of_empty.
Qed.

Lemma filter_types_NoDup (text : JsString) (rules : list BiasRule.t) :
  NoDup (map BiasRule.type rules) ->
  NoDup (map BiasRule.type (List.filter (fires text) rules)).
Proof.
  induction rules as [|rule rules IH]; cbn; [done|].
  intros [Hrule Hnd]%NoDup_cons. destruct (fires text rule); [|auto].
  cbn. apply NoDup_cons. split; [|auto].
  intros (r & Hr & [Hin _]%filter_In)%list_elem_of_In%in_map_iff.
  apply Hrule. rewrite <- Hr. by apply list_elem_of_In, in_map.
Qed.

Lemma detectBiasesFromText_NoDup (text : JsString) :
  NoDup (map CognitiveBias.type (detectBiasesFromText text)).
Proof.
  rewrite detectBiasesFromText_filter, map_map.
  change (fun x => CognitiveBias.type (warningOf x)) with BiasRule.type.
  apply filter_types_NoDup, BIAS_RULES_NoDup.
Qed.

(** Every warning of the scan has the type of a rule of the table. *)
Lemma detectBiasesFromText_types (text : JsString) (b : CognitiveBias.t) :
  b ∈ detectBiasesFromText text ->
  CognitiveBias.type b ∈ map BiasRule.type BIAS_RULES.
Proof.
  rewrite detectBiasesFromText_filter.
  intros (r & <- & [Hin _]%filter_In)%list_elem_of_In%in_map_iff.
  by apply list_elem_of_In, (in_map BiasRule.type).
Qed.

(** *** Inference from the emotional elements *)

Lemma inferStep_inv (element : JsString) (st : Acc)
  (entry : JsString * BiasType) :
  inferInv st -> inferInv (inferStep element st entry).
Proof.
  destruct st as [acc det], entry as [keyword biasType].
  intros (Hnd & Hdet & Hrules). cbn [fst snd] in *. unfold inferStep.
  destruct (String_includes element keyword); cbn [andb]; [|done].
  destruct (bool_decide_reflect (biasType ∈ det)) as [Hin|Hnin];
    cbn [negb]; [done|].
  destruct (find _ BIAS_RULES) as [rule|] eqn:Hfind.
  - apply find_some in Hfind as [Hrule Hty%bool_decide_eq_true].
    repeat split; cbn [fst snd].
    + rewrite map_app. apply NoDup_app. repeat split; [done| |].
      * intros ty (b & <- & Hb%list_elem_of_In)%list_elem_of_In%in_map_iff.
        cbn. rewrite Hty. intros Heq%list_elem_of_singleton.
        apply Hnin. rewrite <- Heq. by apply Hdet.
      * apply NoDup_singleton.
    + intros b [Hb| ->%list_elem_of_singleton]%elem_of_app.
      * apply elem_of_union_r. auto.
      * cbn. rewrite Hty. by apply elem_of_union_l, elem_of_singleton.
    + intros b [Hb| ->%list_elem_of_singleton]%elem_of_app; [auto|].
      apply list_elem_of_In. exact (in_map BiasRule.type _ _ Hrule).
  - repeat split; cbn [fst snd]; [done| |done].
    intros b Hb. apply elem_of_union_r. auto.
Qed.

Lemma inferBiasesFromEmotions_inv (emotionalElements : list JsString) :
  inferInv
    (fold_left
       (fun st element => fold_left (inferStep element) EMOTIONAL_BIAS_MAP st)
       emotionalElements ([], ∅)).
Proof.
  assert (H0 : inferInv (([], ∅) : Acc)).
  { repeat split; cbn; [constructor|..]; by intros b ?%elem_of_nil. }
  revert H0. generalize (([], ∅) : Acc).
  induction emotionalElements as [|element els IH]; intros st Hst; [done|].
  cbn [fold_left]. apply IH. clear IH. revert st Hst.
  induction EMOTIONAL_BIAS_MAP as [|entry m IHm]; intros st Hst; [done|].
  cbn [fold_left]. by apply IHm, inferStep_inv.
Qed.

Lemma inferBiasesFromEmotions_NoDup (emotionalElements : list JsString) :
  NoDup (map CognitiveBias.type (inferBiasesFromEmotions emotionalElements)).
Proof. apply inferBiasesFromEmotions_inv. Qed.

Lemma inferBiasesFromEmotions_types (emotionalElements : list JsString)
  (b : CognitiveBias.t) :
  b ∈ inferBiasesFromEmotions emotionalElements ->
  CognitiveBias.type b ∈ map BiasRule.type BIAS_RULES.
Proof. apply inferBiasesFromEmotions_inv. Qed.

(** *** The merge *)

(** Types that are not in the list play no part in filtering it. *)
Lemma filter_fresh_type (l : list CognitiveBias.t) (ty : BiasType) det :
  ty ∉ map CognitiveBias.type l ->
  filter (fun b => CognitiveBias.type b ∉ {[ty]} ∪ det) l
  = filter (fun b => CognitiveBias.type b ∉ det) l.
Proof.
  induction l as [|b l IH]; [done|]. cbn [map].
  intros [Hne Hl]%not_elem_of_cons. rewrite !filter_cons, IH by done.
  destruct (decide (CognitiveBias.type b ∉ det)) as [Hb|Hb].
  - rewrite decide_True; [done|].
    apply not_elem_of_union. split; [|done].
    by intros ?%elem_of_singleton.
  - rewrite decide_False; [done|].
    intros [_ ?]%not_elem_of_union. done.
Qed.

Lemma merge_fold (l : list CognitiveBias.t) acc det :
  NoDup (map CognitiveBias.type l) ->
  (fold_left mergeStep l (acc, det)).1
  = acc ++ filter (fun b => CognitiveBias.type b ∉ det) l.
Proof.
  revert acc det. induction l as [|b l IH]; intros acc det Hnd.
  - cbn. by rewrite app_nil_r.
  - cbn [map] in Hnd. apply NoDup_cons in Hnd as [Hb Hnd].
    cbn [fold_left]. unfold mergeStep at 2.
    destruct (bool_decide_reflect (CognitiveBias.type b ∈ det)) as [Hin|Hnin];
      cbn [negb].
    + rewrite IH by done. rewrite filter_cons_False; [done|]. by intros [].
    + rewrite IH by done. rewrite filter_fresh_type by done.
      rewrite filter_cons_True by done. by rewrite <- app_assoc.
Qed.

(** The array [analyzeBias] returns: the warnings of the text scan, then
    the inferred ones of a type the scan did not find; the generic
    reminder alone when there is none of either. *)
Lemma analyzeBias_merge (r : ReframedProblem.t) :
  let textBiases := detectBiasesFromText (ReframedProblem.original r) in
  let emotionBiases :=
    inferBiasesFromEmotions (ReframedProblem.emotionalElements r) in
  let merged :=
    textBiases
      ++ filter
           (fun b => CognitiveBias.type b ∉ map CognitiveBias.type textBiases)
           emotionBiases in
  BiasWarnings.biases (analyzeBias r)
  = match merged with
    | [] => [genericReminder]
    | _ => merged
    end.
Proof.
  intros textBiases emotionBiases merged. unfold analyzeBias.
  fold textBiases emotionBiases. cbn [BiasWarnings.biases].
  rewrite merge_fold by apply inferBiasesFromEmotions_NoDup.
  rewrite (list_filter_iff _
    (fun b => CognitiveBias.type b ∉ map CognitiveBias.type textBiases)).
  2:{ intros b. by rewrite elem_of_list_to_set. }
  fold merged. by destruct merged.
Qed.

(** *** The claims on [analyzeBias] *)

Lemma merged_NoDup (r : ReframedProblem.t) :
  let textBiases := detectBiasesFromText (ReframedProblem.original r) in
  NoDup
    (map CognitiveBias.type
       (textBiases
          ++ filter
               (fun b =>
                  CognitiveBias.type b ∉ map CognitiveBias.type textBiases)
               (inferBiasesFromEmotions
                  (ReframedProblem.emotionalElements r)))).
Proof.
  intros textBiases. rewrite map_app. apply NoDup_app. repeat split.
  - apply detectBiasesFromText_NoDup.
  - intros ty Hty (b & <- & Hb%list_elem_of_In)%list_elem_of_In%in_map_iff.
    by apply list_elem_of_filter in Hb as [Hb _].
  - apply (sublist_NoDup _
      (map CognitiveBias.type
         (inferBiasesFromEmotions (ReframedProblem.emotionalElements r)))).
    + apply inferBiasesFromEmotions_NoDup.
    + apply (fmap_sublist CognitiveBias.type), sublist_filter.
Qed.

(** C7.  No two entries of the result of [analyzeBias] have the same
    type.  The entries are the warnings of the rules that fire on the
    original text, in the order of the rule table, followed by the
    warnings inferred from the emotional elements whose type the text scan
    did not find, in the order they were inferred. *)
Theorem analyzeBias_unique_types_in_order (r : ReframedProblem.t) :
  let textBiases :=
    map warningOf (List.filter (fires (ReframedProblem.original r)) BIAS_RULES) in
  let emotionBiases :=
    inferBiasesFromEmotions (ReframedProblem.emotionalElements r) in
  let merged :=
    textBiases
      ++ filter
           (fun b => CognitiveBias.type b ∉ map CognitiveBias.type textBiases)
           emotionBiases in
  NoDup (map CognitiveBias.type (BiasWarnings.biases (analyzeBias r)))
  /\ detectBiasesFromText (ReframedProblem.original r) = textBiases
  /\ BiasWarnings.biases (analyzeBias r)
     = match merged with
       | [] => [genericReminder]
       | _ => merged
       end.
Proof.
  intros textBiases emotionBiases merged.
  assert (Htext : detectBiasesFromText (ReframedProblem.original r) = textBiases)
    by apply detectBiasesFromText_filter.
  assert (Heq := analyzeBias_merge r). cbv zeta in Heq.
  rewrite Htext in Heq. fold emotionBiases merged in Heq.
  repeat split; [|done|done].
  rewrite Heq. pose proof (merged_NoDup r) as Hnd. cbv zeta in Hnd.
  rewrite Htext in Hnd. fold emotionBiases merged in Hnd.
  destruct merged; [apply NoDup_singleton|done].
Qed.

Lemma noPatternMatches_nothing (text : JsString) :
  noPatternMatches text = true -> detectBiasesFromText text = [].
Proof.
  rewrite detectBiasesFromText_filter. unfold noPatternMatches.
  induction BIAS_RULES as [|rule rules IH]; cbn [forallb List.filter map];
    [done|].
  intros [Hrule Hrules]%andb_true_iff.
  replace (fires text rule) with false; [auto|].
  symmetry. apply not_true_is_false.
  intros (p & Hin & Hp)%existsb_exists.
  rewrite forallb_forall in Hrule. specialize (Hrule p Hin).
  by rewrite Hp in Hrule.
Qed.

(** C8.  When the original text matches no pattern of the rule table and
    nothing is inferred from the emotional elements, the result is the
    generic reminder alone, whose type is "other"; when the text scan or
    the inference finds anything, no entry of the result has type
    "other". *)
Theorem analyzeBias_generic_reminder (r : ReframedProblem.t) :
  (noPatternMatches (ReframedProblem.original r) = true ->
   inferBiasesFromEmotions (ReframedProblem.emotionalElements r) = [] ->
   BiasWarnings.biases (analyzeBias r) = [genericReminder]
   /\ map CognitiveBias.type (BiasWarnings.biases (analyzeBias r)) = [other])
  /\ ((0 < length
             (detectBiasesFromText (ReframedProblem.original r)
                ++ inferBiasesFromEmotions
                     (ReframedProblem.emotionalElements r)))%nat ->
      Forall (fun b => CognitiveBias.type b <> other)
        (BiasWarnings.biases (analyzeBias r))).
Proof.
  pose proof (analyzeBias_merge r) as Heq. cbv zeta in Heq. split.
  - intros Htext%noPatternMatches_nothing Hemotion.
    rewrite Htext, Hemotion in Heq. by rewrite Heq.
  - intros Hlen. rewrite Heq.
    set (textBiases := detectBiasesFromText (ReframedProblem.original r)) in *.
    set (emotionBiases :=
           inferBiasesFromEmotions (ReframedProblem.emotionalElements r)) in *.
    assert (Hrule : forall b,
      CognitiveBias.type b ∈ map BiasRule.type BIAS_RULES ->
      CognitiveBias.type b <> other).
    { intros b Hb Hother. rewrite Hother, BIAS_RULES_types in Hb.
      by repeat (apply elem_of_cons in Hb as [?|Hb]; [done|]);
        apply elem_of_nil in Hb. }
    assert (Hall : Forall (fun b => CognitiveBias.type b <> other)
      (textBiases
         ++ filter
              (fun b =>
                 CognitiveBias.type b ∉ map CognitiveBias.type textBiases)
              emotionBiases)).
    { apply Forall_app. split; apply Forall_forall; intros b Hb; apply Hrule.
      - by apply (detectBiasesFromText_types (ReframedProblem.original r)).
      - apply list_elem_of_filter in Hb as [_ Hb].
        by apply (inferBiasesFromEmotions_types
                    (ReframedProblem.emotionalElements r)). }
    destruct textBiases as [|b bs]; [|done].
    destruct emotionBiases as [|b bs]; [cbn in Hlen; lia|].
    rewrite filter_cons_True in Hall |- * by apply not_elem_of_nil. done.
Qed.

(** A text without any pattern of the table, and no emotional element. *)
Lemma analyzeBias_generic_reminder_witness :
  let r :=
    {| ReframedProblem.original := js "xyzxyzxyz unmatched filler text";
       ReframedProblem.reframed := [];
       ReframedProblem.emotionalElements := [] |} in
  BiasWarnings.biases (analyzeBias r) = [genericReminder]
  /\ map CognitiveBias.type (BiasWarnings.biases (analyzeBias r)) = [other].
Proof.
  intros r. apply (proj1 (analyzeBias_generic_reminder r)).
  - vm_compute. reflexivity.
  - reflexivity.
Defined.

End BiasDetection.

(** ** Patterns without [.]: regular expressions as keyword search *)

Section LiteralPatterns.

Lemma is_Some_bool {A} (o : option A) :
  bool_decide (is_Some o) = match o with Some _ => true | None => false end.
Proof.
  destruct o; [apply bool_decide_eq_true_2|apply bool_decide_eq_false_2].
  - eauto.
  - by intros [].
Qed.

Lemma canonicalize_sensitive (c : N) : canonicalize false c = c.
Proof. reflexivity. Qed.

(** A run of literal characters matches exactly where it is a prefix. *)
Lemma matchTerms_literal (k s : JsString) :
  matchTerms false (map Char k) s
  = if String_startsWith s k then Some (length k) else None.
Proof.
  revert s. induction k as [|y k IH]; intros s; [done|].
  destruct s as [|x s]; [done|]. cbn [map matchTerms String_startsWith].
  rewrite !canonicalize_sensitive, IH.
  destruct (x =? y)%N; [|done]. cbn [andb].
  by destruct (String_startsWith s k).
Qed.

Lemma matchDisjunction_literals (ks : list JsString) (s : JsString) :
  match matchDisjunction false (map (map Char) ks) s with
  | Some _ => true
  | None => false
  end = existsb (String_startsWith s) ks.
Proof.
  induction ks as [|k ks IH]; [done|]. cbn [map matchDisjunction existsb].
  rewrite matchTerms_literal. by destruct (String_startsWith s k).
Qed.

Lemma existsb_includes_cons (ks : list JsString) (x : N) (s : JsString) :
  existsb (String_includes (x :: s)) ks
  = existsb (String_startsWith (x :: s)) ks || existsb (String_includes s) ks.
Proof.
  induction ks as [|k ks IH]; [done|]. cbn [existsb]. rewrite IH.
  change (String_includes (x :: s) k)
    with (String_startsWith (x :: s) k || String_includes s k).
  destruct (String_startsWith (x :: s) k), (String_includes s k),
    (existsb (String_startsWith (x :: s)) ks); done.
Qed.

Lemma existsb_includes_nil (ks : list JsString) :
  existsb (String_includes []) ks = existsb (String_startsWith []) ks.
Proof.
  induction ks as [|k ks IH]; [done|]. cbn [existsb]. rewrite IH.
  change (String_includes [] k) with (String_startsWith [] k || false).
  by rewrite orb_false_r.
Qed.

(** A case-sensitive alternation of literal words tests whether the text
    includes one of the words. *)
Lemma RegExp_test_literals (R : RegExp) (ks : list JsString)
  (text : JsString) :
  ignoreCase R = false ->
  disjunction R = map (map Char) ks ->
  RegExp_test_pure R text = existsb (String_includes text) ks.
Proof.
  intros Hic Hd. unfold RegExp_test_pure. rewrite is_Some_bool.
  generalize 0. induction text as [|x s IH]; intros i; cbn [search];
    rewrite Hic, Hd.
  - rewrite existsb_includes_nil, <- matchDisjunction_literals.
    by destruct (matchDisjunction false _ []).
  - rewrite existsb_includes_cons, <- matchDisjunction_literals.
    destruct (matchDisjunction false _ (x :: s)); [done|]. apply IH.
Qed.

End LiteralPatterns.

(** ** Reframing *)

Section Reframing.

Import Reframe Spec.

(** Rewrites the test of a pattern that is the alternation of the words
    [ks] into the search for one of them. *)
Ltac literal_test ks :=
  match goal with
  | |- context [RegExp_test_pure ?R ?text] =>
    rewrite (RegExp_test_literals R ks text) by (vm_compute; reflexivity)
  end.

(** The five tests of [extractCoreThemes] are keyword searches, and its
    result lists every group that matches. *)
Lemma extractCoreThemes_all_matching (text : JsString) :
  extractCoreThemes text = themesOf text.
Proof.
  unfold extractCoreThemes, themesOf.
  literal_test careerKeywords. literal_test relocationKeywords.
  literal_test educationKeywords. literal_test financeKeywords.
  literal_test relationshipKeywords.
  unfold matchingThemes, THEME_GROUPS. cbn [List.filter snd].
  destruct (existsb (String_includes text) careerKeywords),
    (existsb (String_includes text) relocationKeywords),
    (existsb (String_includes text) educationKeywords),
    (existsb (String_includes text) financeKeywords),
    (existsb (String_includes text) relationshipKeywords); reflexivity.
Qed.

Lemma matchingThemes_labels (text : JsString) :
  matchingThemes text ⊆ map fst THEME_GROUPS.
Proof.
  unfold matchingThemes. intros t Ht.
  apply list_elem_of_In, in_map_iff in Ht as (g & <- & [Hg _]%filter_In).
  by apply list_elem_of_In, in_map.
Qed.

(** The question [generateReframedQuestion] builds from the themes of a
    text. *)
Lemma generateReframedQuestion_template (text : JsString) :
  generateReframedQuestion text (themesOf text)
  = templateOf (firstTheme text) (Array_join (themesOf text) (js "与")).
Proof.
  unfold generateReframedQuestion, templateOf.
  assert (Hhead : head (themesOf text) = Some (firstTheme text)).
  { unfold themesOf, firstTheme. by destruct (matchingThemes text). }
  rewrite Hhead. cbn [mbind option_bind].
  set (themeStr := Array_join (themesOf text) (js "与")). clearbody themeStr.
  assert (Hkey : firstTheme text ∈ genericTheme :: map fst THEME_GROUPS).
  { unfold firstTheme. pose proof (matchingThemes_labels text) as Hsub.
    destruct (matchingThemes text) as [|t ts]; [left|right]. apply Hsub. left. }
  clear Hhead. revert Hkey. generalize (firstTheme text).
  intros key Hkey. cbn [map THEME_GROUPS fst] in Hkey.
  repeat
    (apply elem_of_cons in Hkey as [->|Hkey];
     [first [ vm_compute; reflexivity
            | destruct themeStr; vm_compute; reflexivity ]|]).
  by apply elem_of_nil in Hkey.
Qed.

(** C6, as the code has it.  [extractCoreThemes] returns every theme whose
    keyword group matches, in test order (the generic theme when none
    does).  The reframed question is the fixed template keyed by the first
    of them, in which the labels of all of them, joined by "与", are
    substituted.  When at most one group matches, this is the template of
    the single core theme with its own label. *)
Theorem reframed_template_of_first_theme (text : JsString) (σ : Store) :
  extractCoreThemes text
  = match matchingThemes text with
    | [] => [genericTheme]
    | themes => themes
    end
  /\ ReframedProblem.reframed (analyzeAndReframe text σ).1
     = templateOf (firstTheme text)
         (Array_join (extractCoreThemes text) (js "与"))
  /\ ((length (matchingThemes text) <= 1)%nat ->
      ReframedProblem.reframed (analyzeAndReframe text σ).1
      = claimedReframed text).
Proof.
  pose proof (extractCoreThemes_all_matching text) as Hthemes.
  assert (Hreframed :
    ReframedProblem.reframed (analyzeAndReframe text σ).1
    = templateOf (firstTheme text)
        (Array_join (extractCoreThemes text) (js "与"))).
  { unfold analyzeAndReframe.
    destruct (identifyEmotionalElements text σ) as [elements σ'].
    cbn [fst ReframedProblem.reframed]. rewrite Hthemes.
    apply generateReframedQuestion_template. }
  repeat split; [done..|].
  intros Hone. rewrite Hreframed, Hthemes.
  unfold claimedReframed, firstTheme, themesOf.
  destruct (matchingThemes text) as [|t [|t' ts]]; cbn in Hone;
    [done|done|lia].
Qed.

(** A text with keywords of exactly one group: "考研" (education). *)
Lemma reframed_template_witness :
  ReframedProblem.reframed (analyzeAndReframe (js "要不要考研") ∅).1
  = claimedReframed (js "要不要考研").
Proof.
  apply (proj2 (proj2 (reframed_template_of_first_theme (js "要不要考研") ∅))).
  vm_compute. lia.
Defined.

(** C6, as stated, fails on a text with keywords of two groups: "工作"
    (career) and "投资" (finance).  The question names both themes, where
    the specification substitutes the label of the first one only. *)
Lemma reframed_two_themes_counterexample :
  let text := js "工作投资" in
  extractCoreThemes text = [js "职业发展"; js "财务决策"]
  /\ ReframedProblem.reframed (analyzeAndReframe text ∅).1
     = js "在当前个人条件（技能、经验、资源）和市场环境下，不同职业发展与财务决策路径的长期收益与风险结构是什么？"
  /\ claimedReframed text
     = js "在当前个人条件（技能、经验、资源）和市场环境下，不同职业发展路径的长期收益与风险结构是什么？"
  /\ String_eqb
       (ReframedProblem.reframed (analyzeAndReframe text ∅).1)
       (claimedReframed text)
     = false.
Proof. vm_compute. repeat split. Qed.

End Reframing.

(** ** Numbers *)

Section Numbers.

Import Spec.

(** *** Order of binary64 values *)

Lemma compare_cont_spec (a b : positive) :
  CompareSpec (a = b) (a < b)%positive (b < a)%positive
    (Pos.compare_cont Eq a b).
Proof. exact (Pos.compare_spec a b). Qed.

(** Case analysis on every comparison of exponents and mantissas. *)
Ltac compare_cases :=
  repeat match goal with
  | |- context [Z.compare ?a ?b] => destruct (Z.compare_spec a b)
  | |- context [Pos.compare_cont Eq ?a ?b] => destruct (compare_cont_spec a b)
  | H : context [Z.compare ?a ?b] |- _ => destruct (Z.compare_spec a b)
  | H : context [Pos.compare_cont Eq ?a ?b] |- _ =>
    destruct (compare_cont_spec a b)
  end.

Lemma SFcompare_refl (x : spec_float) :
  x <> S754_nan -> SFcompare x x = Some Eq.
Proof.
  destruct x as [[]|[]| |[] m e]; cbn [SFcompare]; try done;
    rewrite Z.compare_refl, Pos.compare_cont_refl; done.
Qed.

Lemma SFcompare_antisym (x y : spec_float) :
  SFcompare y x = CompOpp <$> SFcompare x y.
Proof.
  destruct x as [[]|[]| |[] mx ex], y as [[]|[]| |[] my ey]; try reflexivity;
    cbn [SFcompare fmap option_fmap option_map]; f_equal;
    compare_cases; try reflexivity; lia.
Qed.

Lemma is_nan_spec (x : float) :
  is_nan x = match Prim2SF x with S754_nan => true | _ => false end.
Proof.
  unfold is_nan. rewrite FloatAxioms.eqb_spec. unfold SFeqb.
  destruct (Prim2SF x) eqn:E; try reflexivity;
    rewrite SFcompare_refl by discriminate; reflexivity.
Qed.

(** There is one NaN. *)
Lemma is_nan_eq (x : float) : is_nan x = true -> x = nan.
Proof.
  rewrite is_nan_spec. intros H. apply Prim2SF_inj.
  change (Prim2SF nan) with S754_nan. by destruct (Prim2SF x).
Qed.

Lemma not_ltb_leb (x y : float) :
  is_nan x = false -> is_nan y = false ->
  (x <? y)%float = false -> (y <=? x)%float = true.
Proof.
  rewrite !is_nan_spec, FloatAxioms.ltb_spec, FloatAxioms.leb_spec.
  unfold SFltb, SFleb. rewrite (SFcompare_antisym (Prim2SF x)).
  destruct (SFcompare (Prim2SF x) (Prim2SF y)) as [[]|] eqn:Hc;
    try reflexivity; try discriminate.
  destruct (Prim2SF x), (Prim2SF y); discriminate.
Qed.

Lemma Prim2SF_5 : Prim2SF 5 = five.
Proof. reflexivity. Qed.

Lemma Prim2SF_50 : Prim2SF 50 = fifty.
Proof. reflexivity. Qed.

Lemma lt_50_not_lt_5 (x : float) :
  (50 <? x)%float = true -> (x <? 5)%float = false.
Proof.
  rewrite !FloatAxioms.ltb_spec, Prim2SF_5, Prim2SF_50.
  unfold SFltb, five, fifty.
  generalize 5629499534213120%positive 7036874417766400%positive.
  intros m5 m50.
  destruct (Prim2SF x) as [[]|[]| |[] m e]; cbn [SFcompare];
    try discriminate; try reflexivity.
  compare_cases; try discriminate; try reflexivity; lia.
Qed.

Lemma lt_5_not_lt_5 (x : float) :
  (5 <? x)%float = true -> (x <? 5)%float = false.
Proof.
  rewrite !FloatAxioms.ltb_spec, Prim2SF_5. unfold SFltb, five.
  generalize 5629499534213120%positive. intros m5.
  destruct (Prim2SF x) as [[]|[]| |[] m e]; cbn [SFcompare];
    try discriminate; try reflexivity.
  compare_cases; try discriminate; try reflexivity; lia.
Qed.

Lemma not_lt_5_eq (x : float) :
  is_nan x = false ->
  (5 <? x)%float = false -> (x <? 5)%float = false -> x = 5%float.
Proof.
  rewrite is_nan_spec, !FloatAxioms.ltb_spec, Prim2SF_5. unfold SFltb.
  intros Hn H1 H2. apply Prim2SF_inj. rewrite Prim2SF_5. unfold five in *.
  revert H1 H2. generalize 5629499534213120%positive. intros m5 H1 H2.
  destruct (Prim2SF x) as [[]|[]| |[] m e]; cbn [SFcompare] in *;
    try discriminate.
  clear Hn. compare_cases; try discriminate; try lia. by subst.
Qed.

(** *** Negation *)

Lemma SFadd_opp (x y : spec_float) :
  SFadd prec emax x (SFopp y) = SFsub prec emax x y.
Proof.
  destruct x as [[]|[]| |sx mx ex], y as [[]|[]| |sy my ey]; try reflexivity.
  cbn [SFadd SFsub SFopp]. f_equal.
  destruct sy; cbn [negb cond_Zopp]; lia.
Qed.

(** Rounding to nearest even does not look at the sign. *)
Lemma binary_round_aux_negb (s : bool) (m e : Z) (l : location) :
  binary_round_aux prec emax (negb s) m e l
  = SFopp (binary_round_aux prec emax s m e l).
Proof.
  unfold binary_round_aux.
  destruct (shr_fexp prec emax m e l) as [mrs' e'].
  destruct (shr_fexp prec emax _ e' loc_Exact) as [mrs'' e''].
  destruct (shr_m mrs''); [reflexivity| |reflexivity].
  destruct (e'' <=? emax - prec)%Z; reflexivity.
Qed.

Lemma SFmul_opp_l (x y : spec_float) :
  SFmul prec emax (SFopp x) y = SFopp (SFmul prec emax x y).
Proof.
  destruct x as [sx|sx| |sx mx ex], y as [sy|sy| |sy my ey]; cbn [SFmul SFopp];
    try reflexivity; try (destruct sx, sy; reflexivity).
  rewrite <- binary_round_aux_negb. destruct sx, sy; reflexivity.
Qed.

Lemma add_opp (x y : float) : (x + opp y = x - y)%float.
Proof.
  apply Prim2SF_inj. rewrite add_spec, opp_spec, sub_spec. apply SFadd_opp.
Qed.

Lemma mul_opp_l (x y : float) : (opp x * y = opp (x * y))%float.
Proof.
  apply Prim2SF_inj. rewrite mul_spec, !opp_spec, mul_spec.
  apply SFmul_opp_l.
Qed.

(** Adding [-5 * l] is subtracting [5 * l], exactly. *)
Lemma add_mul_neg5 (p l : float) : (p + -5 * l = p - 5 * l)%float.
Proof. change (-5)%float with (opp 5). by rewrite mul_opp_l, add_opp. Qed.

(** *** Clamping *)

(** [Math.max(5, Math.min(50, x))] clamps [x] into [[5, 50]]; NaN stays
    NaN. *)
Lemma Math_max_min_clamp (x : float) :
  Math_max 5 (Math_min 50 x) = clamp 5 50 x.
Proof.
  unfold clamp, Math_min. change (is_nan 50) with false.
  change (get_sign 50) with false. cbn [orb].
  destruct (is_nan x) eqn:Hn.
  { apply is_nan_eq in Hn. subst x. reflexivity. }
  destruct (50 <? x)%float eqn:Ha.
  { rewrite (lt_50_not_lt_5 x Ha). reflexivity. }
  assert (Hmin : (if (x <? 50)%float then x else x) = x)
    by (by destruct (x <? 50)%float).
  rewrite Hmin. unfold Math_max. change (is_nan 5) with false.
  change (get_sign 5) with false. rewrite Hn. cbn [orb].
  destruct (5 <? x)%float eqn:Hd.
  { by rewrite (lt_5_not_lt_5 x Hd). }
  destruct (x <? 5)%float eqn:Hc; [done|].
  by rewrite (not_lt_5_eq x Hn Hd Hc).
Qed.

Lemma clamp_bounds (x : float) :
  is_nan (clamp 5 50 x)
  || ((5 <=? clamp 5 50 x)%float && (clamp 5 50 x <=? 50)%float) = true.
Proof.
  unfold clamp. destruct (x <? 5)%float eqn:Hc; [reflexivity|].
  destruct (50 <? x)%float eqn:Ha; [reflexivity|].
  destruct (is_nan x) eqn:Hn; [reflexivity|]. cbn [orb].
  rewrite (not_ltb_leb x 5 Hn eq_refl Hc).
  by rewrite (not_ltb_leb 50 x eq_refl Hn Ha).
Qed.

End Numbers.

(** ** Risk distributions *)

Section RiskDistributions.

Import Risk Spec.

(** The levels that zero to six uncertainties give. *)
Lemma uncertaintyLevel_values :
  map uncertaintyLevel [0; 1; 2; 3; 4; 5; 6]
  = [0; 0.25; 0.5; 0.75; 1; 1; 1]%float.
Proof. vm_compute. reflexivity. Qed.

Lemma imap_description
  (f : nat -> OutcomeDistribution.t -> OutcomeDistribution.t)
  (l : list OutcomeDistribution.t) :
  (forall i d,
     OutcomeDistribution.description (f i d)
     = OutcomeDistribution.description d) ->
  map OutcomeDistribution.description (imap f l)
  = map OutcomeDistribution.description l.
Proof.
  revert f. induction l as [|d l IH]; intros f Hf; [done|].
  cbn [imap map]. rewrite Hf. f_equal. apply IH. intros i d'. apply Hf.
Qed.

(** C5.  The uncertainty adjustment computes the level
    [min(count / 4, 1)] from the number of uncertainties, subtracts
    [5 * level] from the buckets at index 1 and 2, adds [2.5 * level] to
    every other bucket, and clamps each result into [[5, 50]]: every
    resulting probability lies between 5 and 50 (a NaN probability stays
    NaN), and the descriptions are kept. *)
Theorem adjustForUncertainties_adjusted
  (distributions : list OutcomeDistribution.t)
  (uncertainties : list JsString) :
  adjustForUncertainties distributions uncertainties
  = adjusted distributions (length uncertainties)
  /\ Forall
       (fun d =>
          let p := OutcomeDistribution.probability d in
          is_nan p || ((5 <=? p)%float && (p <=? 50)%float) = true)
       (adjustForUncertainties distributions uncertainties)
  /\ map OutcomeDistribution.description
       (adjustForUncertainties distributions uncertainties)
     = map OutcomeDistribution.description distributions.
Proof.
  assert (Heq : adjustForUncertainties distributions uncertainties
                = adjusted distributions (length uncertainties)).
  { unfold adjustForUncertainties, adjusted, uncertaintyLevel.
    apply imap_ext. intros index d _. cbv zeta. f_equal.
    rewrite Math_max_min_clamp. f_equal.
    destruct (decide (index = 1 \/ index = 2)) as [[->| ->]|Hne].
    - apply add_mul_neg5.
    - apply add_mul_neg5.
    - replace ((index =? 1)%nat || (index =? 2)%nat) with false; [done|].
      symmetry. apply orb_false_iff. split; apply Nat.eqb_neq; tauto. }
  rewrite Heq. repeat split.
  - unfold adjusted. apply Forall_forall. intros d Hd.
    apply list_elem_of_lookup in Hd as [i Hi].
    rewrite list_lookup_imap in Hi.
    destruct (distributions !! i) as [d0|]; [|done].
    injection Hi as <-. apply clamp_bounds.
  - unfold adjusted. by apply imap_description.
Qed.

(** *** The sum of the probabilities *)

(** The pipeline always finds between one and six uncertainties. *)
Lemma uncertainties_count (r : ReframedProblem.t) :
  (1 <= length
          (VariablesAndConstraints.uncertainties (Variables.analyzeVariables r))
   <= 6)%nat.
Proof.
  unfold Variables.analyzeVariables.
  cbn [VariablesAndConstraints.uncertainties].
  rewrite orDefault_zeroMatches.
  destruct (zeroMatches _ Variables.UNCERTAINTY_KEYWORDS) eqn:Hz.
  - cbn. lia.
  - split; [by apply zeroMatches_false|].
    rewrite matchKeywords_filter, length_map.
    etransitivity; [apply filter_length_le|]. cbn. lia.
Qed.

(** For each template, and for the default distribution, the rounded
    probabilities sum to 100 at every level that up to six uncertainties
    give. *)
Lemma analyzeStrategy_sum (variables : VariablesAndConstraints.t)
  (strategy : Strategy.t) :
  (length (VariablesAndConstraints.uncertainties variables) <= 6)%nat ->
  sumOfProbabilities
    (RiskRewardAnalysis.distributions (analyzeStrategy variables strategy))
  = 100%float.
Proof.
  intros Hlen. unfold analyzeStrategy.
  destruct (findTemplate strategy) as [template|] eqn:Hfind;
    [|vm_compute; reflexivity].
  apply find_some in Hfind as [Hin _].
  cbn [RiskRewardAnalysis.distributions]. unfold adjustForUncertainties.
  set (n := length (VariablesAndConstraints.uncertainties variables)) in *.
  clearbody n. unfold DISTRIBUTION_TEMPLATES in Hin. cbn [In] in Hin.
  destruct Hin as [<-|[<-|[<-|[<-|[]]]]];
    do 7 (destruct n as [|n]; [vm_compute; reflexivity|]); lia.
Qed.

(** C1.  Whatever the problem text (and the state of the RegExp objects),
    the pipeline returns four risk analyses, and the probabilities of each
    of them sum to exactly 100, after the uncertainty adjustment and the
    rounding of each bucket. *)
Theorem pipeline_probabilities_sum_to_100 (problemText : JsString)
  (σ : Store) :
  length
    (DecisionAnalysis.riskRewardAnalysis
       (Tool.analyzeDecision problemText σ).1)
  = 4
  /\ Forall
       (fun analysis =>
          sumOfProbabilities (RiskRewardAnalysis.distributions analysis)
          = 100%float)
       (DecisionAnalysis.riskRewardAnalysis
          (Tool.analyzeDecision problemText σ).1).
Proof.
  unfold Tool.analyzeDecision.
  destruct (Reframe.analyzeAndReframe problemText σ) as [r σ'].
  cbn [fst DecisionAnalysis.riskRewardAnalysis]. unfold analyzeRisk.
  split; [by rewrite length_map|].
  apply Forall_forall. intros analysis Hin.
  apply list_elem_of_In, in_map_iff in Hin as (strategy & <- & _).
  apply analyzeStrategy_sum, uncertainties_count.
Qed.

(** Rounding each bucket on its own does not give 100 in general: three
    equal buckets are normalized to 33 each. *)
Lemma normalizeProbabilities_three_equal :
  map OutcomeDistribution.probability
    (normalizeProbabilities
       [ OutcomeDistribution.mk 10 []; OutcomeDistribution.mk 10 [];
         OutcomeDistribution.mk 10 [] ])
  = [33; 33; 33]%float
  /\ sumOfProbabilities
       (normalizeProbabilities
          [ OutcomeDistribution.mk 10 []; OutcomeDistribution.mk 10 [];
            OutcomeDistribution.mk 10 [] ])
     = 99%float.
Proof. vm_compute. split; reflexivity. Qed.

End RiskDistributions.

(** ** The state of the RegExp objects *)

Section RegExpState.

Implicit Types (R : RegExp) (S : JsString) (σ : Store).

(** *** Matches lie within the string *)

Lemma matchTerms_le (ic : bool) (ts : Alternative) S (n : nat) :
  matchTerms ic ts S = Some n -> (n <= length S)%nat.
Proof.
  revert S n. induction ts as [|t ts IH]; intros S n.
  - cbn. intros [= <-]. lia.
  - destruct t as [c| |].
    + destruct S as [|x S]; cbn [matchTerms]; [done|].
      destruct (canonicalize ic x =? canonicalize ic c)%N; [|done].
      destruct (matchTerms ic ts S) as [n'|] eqn:Hn'; [|done].
      intros [= <-]. apply IH in Hn'. cbn. lia.
    + destruct S as [|x S]; cbn [matchTerms]; [done|].
      destruct (isLineTerminator x); [done|].
      destruct (matchTerms ic ts S) as [n'|] eqn:Hn'; [|done].
      intros [= <-]. apply IH in Hn'. cbn. lia.
    + cbn [matchTerms]. revert n.
      induction S as [|x S IHS]; intros n; [apply IH|].
      destruct (isLineTerminator x); [apply IH|].
      match goal with
      | |- context [match ?star S with _ => _ end] =>
        destruct (star S) as [n'|]
      end; [|apply IH].
      intros [= <-]. specialize (IHS n' eq_refl). cbn. lia.
Qed.

Lemma matchDisjunction_le (ic : bool) (alts : list Alternative) S (n : nat) :
  matchDisjunction ic alts S = Some n -> (n <= length S)%nat.
Proof.
  induction alts as [|ts alts IH]; cbn [matchDisjunction]; [done|].
  destruct (matchTerms ic ts S) as [n'|] eqn:Hn'; [|done].
  intros [= <-]. by apply matchTerms_le in Hn'.
Qed.

(** A match found from position [i] starts at or after [i] and ends
    within the string. *)
Lemma search_bounds R S (i j n : nat) :
  search R S i = Some (j, n) ->
  (i <= j)%nat /\ (j + n <= i + length S)%nat.
Proof.
  revert i. induction S as [|x S IH]; intros i; cbn [search].
  - destruct (matchDisjunction _ _ []) as [n'|] eqn:Hn'; [|done].
    intros [= <- <-]. apply matchDisjunction_le in Hn'. cbn in *. lia.
  - destruct (matchDisjunction _ _ (x :: S)) as [n'|] eqn:Hn'.
    + intros [= <- <-]. apply matchDisjunction_le in Hn'. cbn in *. lia.
    + intros [? ?]%IH. cbn. lia.
Qed.

(** *** What [exec] reads and writes *)

Lemma getLastIndex_set σ R (i : nat) : getLastIndex (setLastIndex σ R i) R = i.
Proof. unfold getLastIndex, setLastIndex. by rewrite lookup_insert_eq. Qed.

(** [exec] reads the store at its own RegExp only. *)
Lemma RegExp_exec_reads R S σ σ' :
  getLastIndex σ R = getLastIndex σ' R ->
  (RegExp_exec R S σ).1 = (RegExp_exec R S σ').1
  /\ getLastIndex (RegExp_exec R S σ).2 R
     = getLastIndex (RegExp_exec R S σ').2 R.
Proof.
  intros Hli. unfold RegExp_exec. rewrite Hli.
  destruct (global R).
  - destruct (length S <? getLastIndex σ' R)%nat;
      [cbn [fst snd]; by rewrite !getLastIndex_set|].
    destruct (search R _ _) as [[i n]|]; cbn [fst snd];
      by rewrite !getLastIndex_set.
  - destruct (length S <? 0)%nat; [done|].
    by destruct (search R _ _) as [[i n]|].
Qed.

(** Without the g flag, [exec] and [test] leave the store alone and start
    from the beginning of the string. *)
Lemma RegExp_test_not_global R S σ :
  global R = false -> RegExp_test R S σ = (RegExp_test_pure R S, σ).
Proof.
  intros Hg. unfold RegExp_test, RegExp_test_pure, RegExp_exec. rewrite Hg.
  cbn [Nat.ltb Nat.leb]. rewrite drop_0.
  destruct (search R S 0) as [[i n]|]; by rewrite !is_Some_bool.
Qed.

(** A successful [exec] of a global RegExp moves [lastIndex] to the end of
    the match, which is not before the old [lastIndex] and not after the
    end of the string. *)
Lemma RegExp_exec_global_match R S σ (r : MatchResult) σ' :
  global R = true ->
  RegExp_exec R S σ = (Some r, σ') ->
  getLastIndex σ' R = (index r + length (matched r))%nat
  /\ (getLastIndex σ R <= index r)%nat
  /\ (index r + length (matched r) <= length S)%nat.
Proof.
  intros Hg. unfold RegExp_exec. rewrite Hg.
  destruct (length S <? getLastIndex σ R)%nat eqn:Hlt; [done|].
  apply Nat.ltb_ge in Hlt.
  destruct (search R _ _) as [[i n]|] eqn:Hs; [|done].
  intros [= <- <-]. apply search_bounds in Hs as [Hi Hn].
  rewrite length_drop in Hn. cbn [index matched].
  rewrite getLastIndex_set, length_take, length_drop. lia.
Qed.

Lemma RegExp_exec_global_fail R S σ σ' :
  global R = true ->
  RegExp_exec R S σ = (None, σ') -> getLastIndex σ' R = 0.
Proof.
  intros Hg. unfold RegExp_exec. rewrite Hg.
  destruct (length S <? getLastIndex σ R)%nat;
    [intros [= <-]; apply getLastIndex_set|].
  destruct (search R _ _) as [[i n]|]; [done|].
  intros [= <-]. apply getLastIndex_set.
Qed.

Lemma RegExp_exec_past_end R S σ :
  global R = true -> (length S < getLastIndex σ R)%nat ->
  RegExp_exec R S σ = (None, setLastIndex σ R 0).
Proof.
  intros Hg Hlt%Nat.ltb_lt. unfold RegExp_exec. by rewrite Hg, Hlt.
Qed.

(** *** The loop of [String.prototype.match] *)

(** The loop reads the store at its own RegExp only. *)
Lemma matchLoop_reads (fuel : nat) R S (A : list JsString) σ σ' :
  getLastIndex σ R = getLastIndex σ' R ->
  (matchLoop fuel R S A σ).1 = (matchLoop fuel R S A σ').1.
Proof.
  revert A σ σ'. induction fuel as [|fuel IH]; intros A σ σ' Hli; [done|].
  cbn [matchLoop]. destruct (RegExp_exec_reads R S σ σ' Hli) as [Hr Hli'].
  destruct (RegExp_exec R S σ) as [r1 σ1], (RegExp_exec R S σ') as [r2 σ2].
  cbn [fst snd] in Hr, Hli'. subst r2. destruct r1 as [r|]; [|done].
  apply IH. destruct (matched r); [|done].
  by rewrite !getLastIndex_set, Hli'.
Qed.

(** Each round moves [lastIndex] forward, so that the loop has returned
    before [length S + 2] rounds: more fuel changes nothing. *)
Lemma matchLoop_fuel (fuel k : nat) R S (A : list JsString) σ :
  global R = true ->
  (1 <= fuel)%nat ->
  (length S + 2 <= fuel + getLastIndex σ R)%nat ->
  matchLoop (fuel + k) R S A σ = matchLoop fuel R S A σ.
Proof.
  intros Hg. revert A σ.
  induction fuel as [|fuel IH]; intros A σ Hfuel Hli; [lia|].
  cbn [matchLoop Nat.add].
  destruct (RegExp_exec R S σ) as [[r|] σ'] eqn:He; [|done].
  destruct (RegExp_exec_global_match R S σ r σ' Hg He) as (Hend & Hstart & Hlen).
  assert (Hnext :
    (getLastIndex σ R + 1
     <= getLastIndex
          match matched r with
          | [] => setLastIndex σ' R (getLastIndex σ' R + 1)
          | _ => σ'
          end R)%nat).
  { destruct (matched r) as [|c m]; [rewrite getLastIndex_set|];
      rewrite Hend; cbn [length]; lia. }
  apply IH; lia.
Qed.

(** With enough fuel the loop ends on a failed [exec], which leaves
    [lastIndex] at 0. *)
Lemma matchLoop_resets (fuel : nat) R S (A : list JsString) σ :
  global R = true ->
  (1 <= fuel)%nat ->
  (length S + 2 <= fuel + getLastIndex σ R)%nat ->
  getLastIndex (matchLoop fuel R S A σ).2 R = 0.
Proof.
  intros Hg. revert A σ.
  induction fuel as [|fuel IH]; intros A σ Hfuel Hli; [lia|].
  cbn [matchLoop].
  destruct (RegExp_exec R S σ) as [[r|] σ'] eqn:He;
    [|by apply (RegExp_exec_global_fail R S σ)].
  destruct (RegExp_exec_global_match R S σ r σ' Hg He) as (Hend & Hstart & Hlen).
  assert (Hnext :
    (getLastIndex σ R + 1
     <= getLastIndex
          match matched r with
          | [] => setLastIndex σ' R (getLastIndex σ' R + 1)
          | _ => σ'
          end R)%nat).
  { destruct (matched r) as [|c m]; [rewrite getLastIndex_set|];
      rewrite Hend; cbn [length]; lia. }
  apply IH; lia.
Qed.

Lemma RegExp_exec_not_global R S σ σ' :
  global R = false -> (RegExp_exec R S σ).1 = (RegExp_exec R S σ').1.
Proof.
  intros Hg. unfold RegExp_exec. rewrite Hg.
  destruct (length S <? 0)%nat; [done|].
  by destruct (search R _ _) as [[i n]|].
Qed.

(** The fuel [String_match] gives the loop is enough. *)
Lemma String_match_fuel (k : nat) S R σ :
  global R = true ->
  matchLoop (length S + 2 + k) R S [] (setLastIndex σ R 0)
  = matchLoop (length S + 2) R S [] (setLastIndex σ R 0).
Proof.
  intros Hg. apply matchLoop_fuel; [done|lia|]. rewrite getLastIndex_set. lia.
Qed.

(** The array [S.match(R)] returns does not depend on the state the
    RegExp objects were left in. *)
Lemma String_match_reads S R σ σ' :
  (String_match S R σ).1 = (String_match S R σ').1.
Proof.
  unfold String_match. destruct (global R) eqn:Hg.
  - pose proof (matchLoop_reads (length S + 2) R S []
                  (setLastIndex σ R 0) (setLastIndex σ' R 0)) as H.
    rewrite !getLastIndex_set in H. specialize (H eq_refl).
    destruct (matchLoop _ R S [] (setLastIndex σ R 0)) as [A1 σ1],
      (matchLoop _ R S [] (setLastIndex σ' R 0)) as [A2 σ2].
    cbn [fst] in *. by subst.
  - pose proof (RegExp_exec_not_global R S σ σ' Hg) as H.
    destruct (RegExp_exec R S σ) as [r1 σ1], (RegExp_exec R S σ') as [r2 σ2].
    cbn [fst] in *. by subst.
Qed.

(** A global RegExp is back at [lastIndex = 0] after [S.match(R)]. *)
Lemma String_match_resets S R σ :
  global R = true -> getLastIndex (String_match S R σ).2 R = 0.
Proof.
  intros Hg. unfold String_match. rewrite Hg.
  pose proof (matchLoop_resets (length S + 2) R S [] (setLastIndex σ R 0) Hg)
    as H.
  destruct (matchLoop _ R S [] _) as [A σ']. cbn [snd] in *.
  apply H; rewrite ?getLastIndex_set; lia.
Qed.

(** *** The pipeline *)

Lemma fold_pushMatches_reads (text : JsString)
  (table : list (RegExp * JsString)) (elements : list JsString) σ σ' :
  (fold_left (Reframe.pushMatches text) table (elements, σ)).1
  = (fold_left (Reframe.pushMatches text) table (elements, σ')).1.
Proof.
  revert elements σ σ'.
  induction table as [|[pattern type] table IH]; intros elements σ σ';
    [done|].
  cbn [fold_left Reframe.pushMatches].
  pose proof (String_match_reads text pattern σ σ') as H.
  destruct (String_match text pattern σ) as [m1 σ1],
    (String_match text pattern σ') as [m2 σ2].
  cbn [fst] in H. subst m2. destruct m1; apply IH.
Qed.

Lemma identifyEmotionalElements_reads (text : JsString) σ σ' :
  (Reframe.identifyEmotionalElements text σ).1
  = (Reframe.identifyEmotionalElements text σ').1.
Proof.
  unfold Reframe.identifyEmotionalElements.
  pose proof (fold_pushMatches_reads text Reframe.EMOTIONAL_PATTERNS [] σ σ')
    as H.
  destruct (fold_left _ Reframe.EMOTIONAL_PATTERNS ([], σ)) as [e1 σ1],
    (fold_left _ Reframe.EMOTIONAL_PATTERNS ([], σ')) as [e2 σ2].
  cbn [fst] in H. subst e2. apply fold_pushMatches_reads.
Qed.

Lemma analyzeAndReframe_reads (problemText : JsString) σ σ' :
  (Reframe.analyzeAndReframe problemText σ).1
  = (Reframe.analyzeAndReframe problemText σ').1.
Proof.
  unfold Reframe.analyzeAndReframe.
  pose proof (identifyEmotionalElements_reads problemText σ σ') as H.
  destruct (Reframe.identifyEmotionalElements problemText σ) as [e1 σ1],
    (Reframe.identifyEmotionalElements problemText σ') as [e2 σ2].
  cbn [fst] in *. by subst.
Qed.

Lemma analyzeDecision_reads (problemText : JsString) σ σ' :
  (Tool.analyzeDecision problemText σ).1
  = (Tool.analyzeDecision problemText σ').1.
Proof.
  unfold Tool.analyzeDecision.
  pose proof (analyzeAndReframe_reads problemText σ σ') as H.
  destruct (Reframe.analyzeAndReframe problemText σ) as [r1 σ1],
    (Reframe.analyzeAndReframe problemText σ') as [r2 σ2].
  cbn [fst] in *. by subst.
Qed.

(** C2.  The pipeline is deterministic.  A call of [analyzeDecision]
    followed by a second call with the same text, run in the state the
    first one left the RegExp objects in, returns an identical analysis;
    so do two calls from any two states, whatever ran in between. *)
Theorem analyzeDecision_deterministic (problemText : JsString)
  (σ σ' : Store) :
  (let '(first, σ1) := Tool.analyzeDecision problemText σ in
   let '(second, _) := Tool.analyzeDecision problemText σ1 in
   first = second)
  /\ (Tool.analyzeDecision problemText σ).1
     = (Tool.analyzeDecision problemText σ').1.
Proof.
  split; [|apply analyzeDecision_reads].
  destruct (Tool.analyzeDecision problemText σ) as [first σ1] eqn:H1.
  destruct (Tool.analyzeDecision problemText σ1) as [second σ2] eqn:H2.
  pose proof (analyzeDecision_reads problemText σ σ1) as H.
  by rewrite H1, H2 in H.
Qed.

End RegExpState.

(** ** The module state after a call *)

Section ModuleState.

Implicit Types (R : RegExp) (S : JsString) (σ : Store).

Lemma getLastIndex_set_ne σ R R' (i : nat) :
  ref R' <> ref R -> getLastIndex (setLastIndex σ R i) R' = getLastIndex σ R'.
Proof.
  intros Hne. unfold getLastIndex, setLastIndex.
  by rewrite lookup_insert_ne.
Qed.

(** [exec] writes to the store at its own RegExp only. *)
Lemma RegExp_exec_frame R S σ R' :
  ref R' <> ref R ->
  getLastIndex (RegExp_exec R S σ).2 R' = getLastIndex σ R'.
Proof.
  intros Hne. unfold RegExp_exec.
  destruct (global R), (length S <? _)%nat; cbn [snd];
    rewrite ?getLastIndex_set_ne by done; try done;
    destruct (search R _ _) as [[i n]|]; cbn [snd];
    by rewrite ?getLastIndex_set_ne.
Qed.

Lemma matchLoop_frame (fuel : nat) R S (A : list JsString) σ R' :
  ref R' <> ref R ->
  getLastIndex (matchLoop fuel R S A σ).2 R' = getLastIndex σ R'.
Proof.
  intros Hne. revert A σ. induction fuel as [|fuel IH]; intros A σ; [done|].
  cbn [matchLoop]. pose proof (RegExp_exec_frame R S σ R' Hne) as Hexec.
  destruct (RegExp_exec R S σ) as [[r|] σ']; cbn [snd] in *; [|done].
  rewrite IH. destruct (matched r); by rewrite ?getLastIndex_set_ne.
Qed.

Lemma String_match_frame S R σ R' :
  ref R' <> ref R ->
  getLastIndex (String_match S R σ).2 R' = getLastIndex σ R'.
Proof.
  intros Hne. unfold String_match. destruct (global R).
  - pose proof (matchLoop_frame (length S + 2) R S [] (setLastIndex σ R 0) R'
                  Hne) as H.
    destruct (matchLoop _ R S [] _) as [A σ']. cbn [snd] in *.
    by rewrite H, getLastIndex_set_ne.
  - pose proof (RegExp_exec_frame R S σ R' Hne) as H.
    by destruct (RegExp_exec R S σ) as [r σ'].
Qed.

Lemma pushMatches_lastIndex (text : JsString) (elements : list JsString) σ
  (entry : RegExp * JsString) R' :
  getLastIndex (Reframe.pushMatches text (elements, σ) entry).2 R'
  = getLastIndex (String_match text entry.1 σ).2 R'.
Proof.
  destruct entry as [pattern type]. cbn [Reframe.pushMatches fst].
  by destruct (String_match text pattern σ) as [[m|] σ'].
Qed.

Lemma fold_pushMatches_frame (text : JsString)
  (table : list (RegExp * JsString)) (elements : list JsString) σ R' :
  Forall (fun entry => ref R' <> ref entry.1) table ->
  getLastIndex (fold_left (Reframe.pushMatches text) table (elements, σ)).2 R'
  = getLastIndex σ R'.
Proof.
  revert elements σ.
  induction table as [|entry table IH]; intros elements σ Hne; [done|].
  apply Forall_cons in Hne as [Hentry Hne]. cbn [fold_left].
  destruct (Reframe.pushMatches text (elements, σ) entry) as [elements' σ']
    eqn:Hstep.
  rewrite IH by done.
  change σ' with (elements', σ').2. rewrite <- Hstep, pushMatches_lastIndex.
  by apply String_match_frame.
Qed.

(** After the loop over a table of distinct global RegExp objects, each of
    them is back at [lastIndex = 0]. *)
Lemma fold_pushMatches_resets (text : JsString)
  (table : list (RegExp * JsString)) (elements : list JsString) σ :
  NoDup (map (fun entry => ref entry.1) table) ->
  Forall (fun entry => global entry.1 = true) table ->
  Forall
    (fun entry =>
       getLastIndex
         (fold_left (Reframe.pushMatches text) table (elements, σ)).2 entry.1
       = 0)
    table.
Proof.
  revert elements σ.
  induction table as [|entry table IH]; intros elements σ Hnd Hg; [done|].
  cbn [map] in Hnd. apply NoDup_cons in Hnd as [Hentry Hnd].
  apply Forall_cons in Hg as [Hglobal Hg]. cbn [fold_left].
  destruct (Reframe.pushMatches text (elements, σ) entry) as [elements' σ']
    eqn:Hstep.
  apply Forall_cons. split; [|by apply IH].
  rewrite fold_pushMatches_frame.
  - change σ' with (elements', σ').2. rewrite <- Hstep, pushMatches_lastIndex.
    by apply String_match_resets.
  - apply Forall_forall. intros entry' Hin Heq. apply Hentry.
    rewrite Heq. apply list_elem_of_In.
    by apply (in_map (fun entry => ref entry.1)), list_elem_of_In.
Qed.

(** A call of the pipeline leaves the sixteen RegExp objects of the
    Reframer's tables as they were when the module was loaded: at
    [lastIndex = 0]. *)
Theorem analyzeDecision_resets_lastIndex (problemText : JsString) σ :
  Forall
    (fun entry => getLastIndex (Tool.analyzeDecision problemText σ).2 entry.1 = 0)
    (Reframe.EMOTIONAL_PATTERNS ++ Reframe.STANCE_PATTERNS).
Proof.
  unfold Tool.analyzeDecision, Reframe.analyzeAndReframe.
  destruct (Reframe.identifyEmotionalElements problemText σ) as [elements σ']
    eqn:Hid.
  cbn [snd]. change σ' with (elements, σ').2. rewrite <- Hid.
  unfold Reframe.identifyEmotionalElements. rewrite <- fold_left_app.
  apply fold_pushMatches_resets.
  - apply (bool_decide_unpack _). vm_compute. reflexivity.
  - apply Forall_forall. intros entry Hin%list_elem_of_In.
    revert entry Hin. apply forallb_forall. vm_compute. reflexivity.
Qed.

End ModuleState.

(** ** The scenarios of the specification, evaluated *)

Section Scenarios.

(** Scenario 1.  The text has no career keyword; "创业" puts it under the
    finance theme.  Four emotional elements are found, and the text scan
    reports group pressure and sunk cost. *)
Example scenario_resignation :
  let text :=
    js "我很焦虑，到底要不要辞职创业，已经投入了两年时间，感觉大家都在卷" in
  let analysis := (Tool.analyzeDecision text ∅).1 in
  Reframe.extractCoreThemes text = [js "财务决策"]
  /\ ReframedProblem.emotionalElements
       (DecisionAnalysis.reframedProblem analysis)
     = [ js "焦虑情绪：'焦虑'"; js "群体压力：'大家都'"; js "竞争焦虑：'卷'";
         js "决策焦虑：'要不要'" ]
  /\ map CognitiveBias.type
       (BiasWarnings.biases (DecisionAnalysis.biasWarnings analysis))
     = [groupPressure; sunkCostFallacy].
Proof. vm_compute. repeat split. Qed.

(** Scenario 2.  On a text without any keyword, the key variables, hard
    constraints and uncertainties are the default lists; the goals are not,
    because the search buffer includes the reframed question, whose generic
    template contains the keyword "选择". *)
Example scenario_no_keyword :
  let text := js "xyzxyzxyz unmatched filler text" in
  let v :=
    DecisionAnalysis.variablesAndConstraints (Tool.analyzeDecision text ∅).1 in
  VariablesAndConstraints.goals v = [js "个人自主权"]
  /\ VariablesAndConstraints.keyVariables v = Variables.getDefaultVariables
  /\ VariablesAndConstraints.hardConstraints v
     = Variables.getDefaultConstraints
  /\ VariablesAndConstraints.uncertainties v
     = Variables.getDefaultUncertainties.
Proof. vm_compute. repeat split. Qed.

(** Scenario 3.  With no uncertainty the level is 0 and an aggressive
    strategy keeps the probabilities of its template. *)
Example scenario_aggressive_no_uncertainty :
  let s :=
    {| Strategy.id := js "A"; Strategy.name := js "策略 A：立即行动";
       Strategy.type := js "aggressive"; Strategy.typeLabel := js "激进型";
       Strategy.preconditions := []; Strategy.executionCost := [];
       Strategy.triggerPoints := []; Strategy.worstCase := [] |} in
  map OutcomeDistribution.probability
    (RiskRewardAnalysis.distributions
       (Risk.analyzeStrategy (VariablesAndConstraints.mk [] [] [] []) s))
  = [20; 35; 30; 15]%float.
Proof. vm_compute. reflexivity. Qed.

End Scenarios.

(** * Further properties of the analyzers *)

(** ** Substrings *)

Section Substrings.

Lemma String_startsWith_app (k post : JsString) :
  String_startsWith (k ++ post) k = true.
Proof.
  induction k as [|y k IH]; [done|]. cbn. by rewrite N.eqb_refl, IH.
Qed.

Lemma String_startsWith_prefix (s k : JsString) :
  String_startsWith s k = true -> exists post, s = k ++ post.
Proof.
  revert s. induction k as [|y k IH]; intros s; [by exists s|].
  destruct s as [|x s]; cbn; [done|].
  intros [->%N.eqb_eq [post ->]%IH]%andb_true_iff. by exists post.
Qed.

(** [s.includes(k)] holds exactly when [k] lies somewhere in [s]. *)
Lemma String_includes_spec (s k : JsString) :
  String_includes s k = true <-> exists pre post, s = pre ++ k ++ post.
Proof.
  split.
  - induction s as [|x s IH]; cbn [String_includes].
    + rewrite orb_false_r. intros [post ->]%String_startsWith_prefix.
      by exists [], post.
    + intros [Hp|Hs]%orb_true_iff.
      * apply String_startsWith_prefix in Hp as [post ->]. by exists [], post.
      * destruct (IH Hs) as (pre & post & ->). by exists (x :: pre), post.
  - intros (pre & post & ->).
    induction pre as [|x pre IH].
    + cbn [app]. destruct (k ++ post) eqn:E; cbn [String_includes];
        rewrite <- E, String_startsWith_app; done.
    + cbn [app String_includes]. rewrite IH. apply orb_true_r.
Qed.

(** What a part of the text includes, the text includes. *)
Lemma String_includes_trans (text part k : JsString) :
  String_includes text part = true ->
  String_includes part k = true ->
  String_includes text k = true.
Proof.
  intros (pre & post & ->)%String_includes_spec
         (pre' & post' & ->)%String_includes_spec.
  apply String_includes_spec. exists (pre ++ pre'), (post' ++ post).
  by rewrite <- !app_assoc.
Qed.

Lemma String_includes_app_r (a b k : JsString) :
  String_includes b k = true -> String_includes (a ++ b) k = true.
Proof.
  intros (pre & post & ->)%String_includes_spec.
  apply String_includes_spec. exists (a ++ pre), post.
  by rewrite <- !app_assoc.
Qed.

Lemma String_includes_app_l (a b k : JsString) :
  String_includes a k = true -> String_includes (a ++ b) k = true.
Proof.
  intros (pre & post & ->)%String_includes_spec.
  apply String_includes_spec. exists pre, (post ++ b).
  by rewrite <- !app_assoc.
Qed.

Lemma Array_includes_elem_of (arr : list JsString) (x : JsString) :
  Array_includes arr x = true <-> x ∈ arr.
Proof.
  unfold Array_includes. rewrite existsb_exists. split.
  - intros (y & Hy & ->%String_eqb_eq). by apply list_elem_of_In.
  - intros Hx. exists x. split; [by apply list_elem_of_In|].
    apply String_eqb_refl.
Qed.

End Substrings.

(** ** The reframed question *)

Section ReframedQuestion.

Import Reframe Spec.


(** Without a theme keyword the reframed question is the generic one. *)
Lemma reframed_generic (text : JsString) (σ : Store) :
  matchingThemes text = [] ->
  ReframedProblem.reframed (analyzeAndReframe text σ).1
  = js "该决策涉及哪些关键变量、目标、约束和不确定性因素？不同选择的结构性差异是什么？".
Proof.
  intros Hnone. unfold analyzeAndReframe.
  destruct (identifyEmotionalElements text σ) as [elements σ'].
  cbn [fst ReframedProblem.reframed].
  rewrite extractCoreThemes_all_matching. unfold themesOf. rewrite Hnone.
  vm_compute. reflexivity.
Qed.

End ReframedQuestion.

(** ** Keyword extraction *)

Section KeywordExtraction.

Import Variables Spec.

Lemma elem_of_matchKeywords (text label : JsString) (keywordMap : KeywordMap) :
  label ∈ matchKeywords text keywordMap
  <-> exists keywords,
        (label, keywords) ∈ keywordMap
        /\ existsb (String_includes text) keywords = true.
Proof.
  rewrite matchKeywords_filter, list_elem_of_In, in_map_iff. split.
  - intros ([l ks] & <- & [Hin Hex]%filter_In). exists ks.
    by rewrite list_elem_of_In.
  - intros (ks & Hin%list_elem_of_In & Hex). exists (label, ks).
    by rewrite filter_In.
Qed.

Lemma matchKeywords_sublist (text : JsString) (keywordMap : KeywordMap) :
  matchKeywords text keywordMap `sublist_of` map fst keywordMap.
Proof.
  rewrite matchKeywords_filter.
  induction keywordMap as [|[label keywords] m IH]; cbn; [done|].
  destruct (existsb _ keywords); cbn; by constructor.
Qed.

(** A text that includes another one yields every label the other one
    yields: adding text never loses a label. *)
Theorem matchKeywords_monotone (text text' label : JsString)
  (keywordMap : KeywordMap) :
  String_includes text' text = true ->
  label ∈ matchKeywords text keywordMap ->
  label ∈ matchKeywords text' keywordMap.
Proof.
  intros Hinc (ks & Hin & (k & Hk & Hkt)%existsb_exists)%elem_of_matchKeywords.
  apply elem_of_matchKeywords. exists ks. split; [done|].
  apply existsb_exists. exists k. split; [done|].
  by apply (String_includes_trans text' text).
Qed.

Lemma matchKeywords_monotone_witness :
  js "职业发展空间"
    ∈ matchKeywords (js "我想知道有没有晋升的可能") GOAL_KEYWORDS.
Proof.
  apply (matchKeywords_monotone (js "晋升")).
  - vm_compute. reflexivity.
  - apply (bool_decide_unpack _). vm_compute. reflexivity.
Defined.

Lemma orDefault_NoDup (xs dflt : list JsString) :
  NoDup xs -> NoDup dflt -> NoDup (orDefault xs dflt).
Proof. unfold orDefault. by destruct (length xs =? 0)%nat. Qed.

Lemma orDefault_cases (xs dflt : list JsString) :
  orDefault xs dflt = dflt \/ orDefault xs dflt = xs.
Proof. unfold orDefault. destruct (length xs =? 0)%nat; auto. Qed.

(** The lists of [analyzeVariables] have no duplicates, and a list that is
    not the default one names labels of its table in the order in which
    the table declares them. *)
Theorem analyzeVariables_ordered_NoDup (r : ReframedProblem.t) :
  let v := analyzeVariables r in
  (NoDup (VariablesAndConstraints.goals v)
   /\ NoDup (VariablesAndConstraints.keyVariables v)
   /\ NoDup (VariablesAndConstraints.hardConstraints v)
   /\ NoDup (VariablesAndConstraints.uncertainties v))
  /\ (VariablesAndConstraints.goals v = getDefaultGoals
      \/ VariablesAndConstraints.goals v `sublist_of` map fst GOAL_KEYWORDS)
  /\ (VariablesAndConstraints.keyVariables v = getDefaultVariables
      \/ VariablesAndConstraints.keyVariables v
           `sublist_of` map fst VARIABLE_KEYWORDS)
  /\ (VariablesAndConstraints.hardConstraints v = getDefaultConstraints
      \/ VariablesAndConstraints.hardConstraints v
           `sublist_of` map fst CONSTRAINT_KEYWORDS)
  /\ (VariablesAndConstraints.uncertainties v = getDefaultUncertainties
      \/ VariablesAndConstraints.uncertainties v
           `sublist_of` map fst UNCERTAINTY_KEYWORDS).
Proof.
  intros v. subst v. unfold analyzeVariables.
  cbn [VariablesAndConstraints.goals VariablesAndConstraints.keyVariables
    VariablesAndConstraints.hardConstraints
    VariablesAndConstraints.uncertainties].
  set (text := ReframedProblem.original r ++ js " "
                 ++ ReframedProblem.reframed r).
  assert (Hnd : forall m dflt,
    NoDup (map fst m) -> NoDup dflt ->
    NoDup (orDefault (matchKeywords text m) dflt)).
  { intros m dflt Hm Hd. apply orDefault_NoDup; [|done].
    eapply sublist_NoDup; [exact Hm|apply matchKeywords_sublist]. }
  assert (Hsub : forall m dflt,
    orDefault (matchKeywords text m) dflt = dflt
    \/ orDefault (matchKeywords text m) dflt `sublist_of` map fst m).
  { intros m dflt. destruct (orDefault_cases (matchKeywords text m) dflt)
      as [->| ->]; [by left|right; apply matchKeywords_sublist]. }
  repeat split; try apply Hsub;
    apply Hnd; apply (bool_decide_unpack _); vm_compute; reflexivity.
Qed.

(** In the pipeline the search buffer ends with the reframed question.  For
    a text without any theme keyword that is the generic template, which
    contains the keyword "选择": the goals then always name "个人自主权",
    and are never the default goals. *)
Theorem pipeline_goals_of_generic_theme (problemText : JsString) (σ : Store) :
  matchingThemes problemText = [] ->
  let v :=
    DecisionAnalysis.variablesAndConstraints
      (Tool.analyzeDecision problemText σ).1 in
  js "个人自主权" ∈ VariablesAndConstraints.goals v
  /\ VariablesAndConstraints.goals v
     = matchKeywords
         (problemText ++ js " "
            ++ js "该决策涉及哪些关键变量、目标、约束和不确定性因素？不同选择的结构性差异是什么？")
         GOAL_KEYWORDS.
Proof.
  intros Hnone v. subst v. unfold Tool.analyzeDecision.
  pose proof (reframed_generic problemText σ Hnone) as Hre.
  destruct (Reframe.analyzeAndReframe problemText σ) as [r σ'] eqn:Hr.
  cbn [fst DecisionAnalysis.variablesAndConstraints] in *.
  assert (Horig : ReframedProblem.original r = problemText).
  { unfold Reframe.analyzeAndReframe in Hr.
    destruct (Reframe.identifyEmotionalElements problemText σ).
    by injection Hr as <- _. }
  unfold analyzeVariables. cbn [VariablesAndConstraints.goals].
  rewrite Horig, Hre.
  set (text := problemText ++ js " " ++ _).
  assert (Hin : js "个人自主权" ∈ matchKeywords text GOAL_KEYWORDS).
  { apply (matchKeywords_monotone (js "选择")).
    - unfold text. apply String_includes_app_r, String_includes_app_r.
      vm_compute. reflexivity.
    - apply (bool_decide_unpack _). vm_compute. reflexivity. }
  unfold orDefault. destruct (matchKeywords text GOAL_KEYWORDS) as [|l ls];
    [by apply elem_of_nil in Hin|done].
Qed.

Lemma pipeline_goals_witness :
  let v :=
    DecisionAnalysis.variablesAndConstraints
      (Tool.analyzeDecision (js "xyzxyzxyz unmatched filler text") ∅).1 in
  js "个人自主权" ∈ VariablesAndConstraints.goals v
  /\ VariablesAndConstraints.goals v
     = matchKeywords
         (js "xyzxyzxyz unmatched filler text" ++ js " "
            ++ js "该决策涉及哪些关键变量、目标、约束和不确定性因素？不同选择的结构性差异是什么？")
         GOAL_KEYWORDS.
Proof.
  apply (pipeline_goals_of_generic_theme
           (js "xyzxyzxyz unmatched filler text") ∅).
  vm_compute. reflexivity.
Defined.

End KeywordExtraction.

(** ** From the text to the strategies *)

Section StrategiesOfText.

Import Variables Strategies Spec.

Lemma NoDup_fst_functional {A B} (l : list (A * B)) (x : A) (y1 y2 : B) :
  NoDup (map fst l) -> (x, y1) ∈ l -> (x, y2) ∈ l -> y1 = y2.
Proof.
  induction l as [|[a b] l IH]; [by intros _ ?%elem_of_nil|].
  cbn [map fst]. intros [Hnotin Hnd]%NoDup_cons.
  intros [H1|H1]%elem_of_cons [H2|H2]%elem_of_cons.
  - congruence.
  - injection H1 as <- <-. destruct Hnotin.
    apply (list_elem_of_fmap_2 fst) in H2. exact H2.
  - injection H2 as <- <-. destruct Hnotin.
    apply (list_elem_of_fmap_2 fst) in H1. exact H1.
  - by apply IH.
Qed.

Lemma matchKeywords_label (text label : JsString) (keywords : list JsString)
  (keywordMap : KeywordMap) :
  NoDup (map fst keywordMap) ->
  (label, keywords) ∈ keywordMap ->
  Array_includes (matchKeywords text keywordMap) label
  = existsb (String_includes text) keywords.
Proof.
  intros Hnd Hin. apply eq_true_iff_eq.
  rewrite Array_includes_elem_of, elem_of_matchKeywords. split.
  - intros (ks & Hin' & Hex).
    by rewrite (NoDup_fst_functional keywordMap label keywords ks).
  - intros Hex. by exists keywords.
Qed.

Lemma Array_includes_orDefault (xs dflt : list JsString) (x : JsString) :
  Array_includes dflt x = false ->
  Array_includes (orDefault xs dflt) x = Array_includes xs x.
Proof.
  unfold orDefault. destruct xs as [|y ys]; cbn [length Nat.eqb]; [|done].
  intros ->. reflexivity.
Qed.

(** The strategies do not depend on the reframed problem, the goals or the
    hard constraints: two calls whose key variables agree on "资金储备" and
    whose uncertainties agree on "政策变化" return the same strategy space,
    so no text of the user ever reaches a strategy. *)
Theorem generateStrategies_two_flags (r r' : ReframedProblem.t)
  (v v' : VariablesAndConstraints.t) :
  Array_includes (VariablesAndConstraints.keyVariables v) (js "资金储备")
  = Array_includes (VariablesAndConstraints.keyVariables v') (js "资金储备") ->
  Array_includes (VariablesAndConstraints.uncertainties v) (js "政策变化")
  = Array_includes (VariablesAndConstraints.uncertainties v') (js "政策变化") ->
  generateStrategies r v = generateStrategies r' v'.
Proof.
  intros Hk Hu. unfold generateStrategies.
  apply (f_equal StrategySpace.mk), map_ext. intros config.
  assert (generatePreconditions config v = generatePreconditions config v')
    as ->.
  { unfold generatePreconditions.
    destruct (Config.type config); rewrite ?Hk; reflexivity. }
  assert (generateTriggerPoints config v = generateTriggerPoints config v')
    as ->.
  { unfold generateTriggerPoints.
    destruct (Config.type config); rewrite ?Hu; reflexivity. }
  reflexivity.
Qed.

Lemma generateStrategies_two_flags_witness :
  generateStrategies
    (ReframedProblem.mk (js "要不要辞职") (js "x") [])
    (VariablesAndConstraints.mk [js "生活质量"] [js "年龄"] [] [js "国际形势"])
  = generateStrategies
      (ReframedProblem.mk (js "要不要出国") (js "y") [js "焦虑"])
      (VariablesAndConstraints.mk [] [js "健康状况"; js "年龄"]
         [js "时间窗口"] []).
Proof.
  apply generateStrategies_two_flags; vm_compute; reflexivity.
Defined.

(** Composition of [analyzeVariables] and [generateStrategies]: a strategy
    carries the funds precondition exactly when the searched text (original
    and reframed question) includes one of the keywords of "资金储备", and
    a strategy carries the policy trigger point exactly when it includes
    one of the keywords of "政策变化". *)
Theorem strategies_extras_of_text (r : ReframedProblem.t) :
  let text :=
    ReframedProblem.original r ++ js " " ++ ReframedProblem.reframed r in
  let strategies :=
    StrategySpace.strategies (generateStrategies r (analyzeVariables r)) in
  existsb
    (fun s =>
       Array_includes (Strategy.preconditions s)
         (js "有足够的资金支持初期投入"))
    strategies
  = existsb (String_includes text)
      [js "钱"; js "存款"; js "资金"; js "积蓄"; js "财务"]
  /\ existsb
       (fun s =>
          Array_includes (Strategy.triggerPoints s) (js "政策环境明朗化"))
       strategies
     = existsb (String_includes text)
         [js "政策"; js "法规"; js "政府"; js "制度"].
Proof.
  intros text strategies. subst strategies.
  set (funds := existsb (String_includes text) _).
  set (policy := existsb (String_includes text) _).
  unfold generateStrategies. cbn [StrategySpace.strategies].
  cbn [existsb map STRATEGY_CONFIGS Strategy.preconditions
    Strategy.triggerPoints].
  unfold generatePreconditions, generateTriggerPoints. cbn [Config.type].
  unfold analyzeVariables. fold text.
  cbn [VariablesAndConstraints.keyVariables
    VariablesAndConstraints.uncertainties].
  rewrite !Array_includes_orDefault by (vm_compute; reflexivity).
  rewrite (matchKeywords_label text (js "资金储备")
             [js "钱"; js "存款"; js "资金"; js "积蓄"; js "财务"]);
    [|apply (bool_decide_unpack _); vm_compute; reflexivity
     |apply (bool_decide_unpack _); vm_compute; reflexivity].
  rewrite (matchKeywords_label text (js "政策变化")
             [js "政策"; js "法规"; js "政府"; js "制度"]);
    [|apply (bool_decide_unpack _); vm_compute; reflexivity
     |apply (bool_decide_unpack _); vm_compute; reflexivity].
  fold funds policy. clearbody funds policy.
  destruct funds, policy; vm_compute; split; reflexivity.
Qed.

End StrategiesOfText.

(** ** The risk analyses *)

Section RiskAnalyses.

Import Risk Spec.

Lemma normalizeProbabilities_description
  (distributions : list OutcomeDistribution.t) :
  map OutcomeDistribution.description (normalizeProbabilities distributions)
  = map OutcomeDistribution.description distributions.
Proof. unfold normalizeProbabilities. rewrite map_map. reflexivity. Qed.

Lemma adjustForUncertainties_description
  (distributions : list OutcomeDistribution.t)
  (uncertainties : list JsString) :
  map OutcomeDistribution.description
    (adjustForUncertainties distributions uncertainties)
  = map OutcomeDistribution.description distributions.
Proof. unfold adjustForUncertainties. by apply imap_description. Qed.

(** [analyzeRisk] returns one analysis per strategy, in the order of the
    strategies, with the strategy's id and name; the descriptions of the
    buckets are those of the template of the strategy's type (of the default
    distribution without one), whatever the uncertainties are. *)
Theorem analyzeRisk_labels (strategySpace : StrategySpace.t)
  (variables : VariablesAndConstraints.t) :
  map
    (fun a =>
       (RiskRewardAnalysis.strategyId a, RiskRewardAnalysis.strategyName a,
        map OutcomeDistribution.description
          (RiskRewardAnalysis.distributions a)))
    (analyzeRisk strategySpace variables)
  = map
      (fun s =>
         (Strategy.id s, Strategy.name s,
          match findTemplate s with
          | Some template =>
            map Bucket.template (DistributionTemplate.distributions template)
          | None =>
            map OutcomeDistribution.description defaultDistributions
          end))
      (StrategySpace.strategies strategySpace).
Proof.
  unfold analyzeRisk. rewrite map_map. apply map_ext. intros s.
  unfold analyzeStrategy. destruct (findTemplate s) as [template|];
    cbn [RiskRewardAnalysis.strategyId RiskRewardAnalysis.strategyName
      RiskRewardAnalysis.distributions]; [|reflexivity].
  rewrite normalizeProbabilities_description,
    adjustForUncertainties_description, map_map. reflexivity.
Qed.

Lemma analyzeStrategy_ext (v v' : VariablesAndConstraints.t)
  (s s' : Strategy.t) :
  Strategy.id s = Strategy.id s' ->
  Strategy.name s = Strategy.name s' ->
  Strategy.type s = Strategy.type s' ->
  length (VariablesAndConstraints.uncertainties v)
  = length (VariablesAndConstraints.uncertainties v') ->
  analyzeStrategy v s = analyzeStrategy v' s'.
Proof.
  unfold analyzeStrategy, findTemplate, adjustForUncertainties.
  intros -> -> -> ->. reflexivity.
Qed.

(** The risk analysis reads the id, the name and the type of each strategy
    and the number of the uncertainties, nothing else: neither which
    uncertainties were found, nor the goals, key variables or constraints,
    nor the other fields of a strategy change the result. *)
Theorem analyzeRisk_reads (sp sp' : StrategySpace.t)
  (v v' : VariablesAndConstraints.t) :
  map (fun s => (Strategy.id s, Strategy.name s, Strategy.type s))
    (StrategySpace.strategies sp)
  = map (fun s => (Strategy.id s, Strategy.name s, Strategy.type s))
      (StrategySpace.strategies sp') ->
  length (VariablesAndConstraints.uncertainties v)
  = length (VariablesAndConstraints.uncertainties v') ->
  analyzeRisk sp v = analyzeRisk sp' v'.
Proof.
  unfold analyzeRisk. intros Hs Hlen.
  revert Hs. generalize (StrategySpace.strategies sp')
    (StrategySpace.strategies sp). clear sp sp'.
  intros l' l. revert l'. induction l as [|s l IH]; intros [|s' l'] Hs;
    try discriminate; [reflexivity|].
  cbn [map] in *. injection Hs as Hid Hname Htype Hs.
  f_equal; [by apply analyzeStrategy_ext|by apply IH].
Qed.

Lemma analyzeRisk_reads_witness :
  analyzeRisk
    (StrategySpace.mk
       [Strategy.mk (js "A") (js "策略 A") (js "aggressive") (js "激进型")
          [js "p"] (js "c") [js "t"] (js "w")])
    (VariablesAndConstraints.mk [js "g"] [js "k"] [js "h"]
       [js "政策变化"; js "国际形势"])
  = analyzeRisk
      (StrategySpace.mk
         [Strategy.mk (js "A") (js "策略 A") (js "aggressive") [] [] [] []
            []])
      (VariablesAndConstraints.mk [] [] [] [js "技术变革"; js "经济周期波动"]).
Proof. apply analyzeRisk_reads; vm_compute; reflexivity. Defined.

(** Without any uncertainty the adjustment and the rounding change nothing:
    a strategy with a template gets the template's probabilities. *)
Theorem analyzeStrategy_no_uncertainty (v : VariablesAndConstraints.t)
  (s : Strategy.t) (template : DistributionTemplate.t) :
  VariablesAndConstraints.uncertainties v = [] ->
  findTemplate s = Some template ->
  map OutcomeDistribution.probability
    (RiskRewardAnalysis.distributions (analyzeStrategy v s))
  = map Bucket.probability (DistributionTemplate.distributions template).
Proof.
  intros Hu Hfind. unfold analyzeStrategy. rewrite Hfind, Hu.
  cbn [RiskRewardAnalysis.distributions].
  apply find_some in Hfind as [Hin _].
  unfold DISTRIBUTION_TEMPLATES in Hin. cbn [In] in Hin.
  destruct Hin as [<-|[<-|[<-|[<-|[]]]]]; vm_compute; reflexivity.
Qed.

Lemma analyzeStrategy_no_uncertainty_witness :
  map OutcomeDistribution.probability
    (RiskRewardAnalysis.distributions
       (analyzeStrategy (VariablesAndConstraints.mk [] [] [] [])
          (Strategy.mk (js "D") (js "策略 D") (js "exit") [] [] [] [] [])))
  = [30; 35; 20; 15]%float.
Proof.
  apply (analyzeStrategy_no_uncertainty (VariablesAndConstraints.mk [] [] [] [])
           (Strategy.mk (js "D") (js "策略 D") (js "exit") [] [] [] [] [])
           (DistributionTemplate.mk (js "exit")
              [ Bucket.mk 30 (js "成功转向，新方向发展良好");
                Bucket.mk 35 (js "转向后需要较长适应期，短期内有阵痛");
                Bucket.mk 20 (js "新方向也遇到挑战，需要再次调整");
                Bucket.mk 15 (js "产生后悔情绪，对放弃的路径念念不忘") ]));
    vm_compute; reflexivity.
Defined.



End RiskAnalyses.

(** ** The emotional elements *)

Section EmotionalElements.

Import Reframe Spec.

Lemma RegExp_exec_matched R S σ (r : MatchResult) :
  (RegExp_exec R S σ).1 = Some r -> String_includes S (matched r) = true.
Proof.
  unfold RegExp_exec.
  destruct (length S <? _)%nat; [done|].
  destruct (search R _ _) as [[i n]|]; [|done].
  cbn [fst]. intros [= <-]. cbn [matched].
  apply String_includes_spec. exists (take i S), (drop n (drop i S)).
  by rewrite take_drop, take_drop.
Qed.

(** The loop only appends to the array, and what it appends are pieces of
    the string. *)
Lemma matchLoop_acc (fuel : nat) R S (A : list JsString) σ :
  exists ms,
    (matchLoop fuel R S A σ).1 = A ++ ms
    /\ Forall (fun m => String_includes S m = true) ms.
Proof.
  revert A σ. induction fuel as [|fuel IH]; intros A σ; cbn [matchLoop].
  { exists []. by rewrite app_nil_r. }
  destruct (RegExp_exec R S σ) as [[r|] σ'] eqn:He.
  - destruct (IH (A ++ [matched r])
               match matched r with
               | [] => setLastIndex σ' R (getLastIndex σ' R + 1)
               | _ => σ'
               end) as (ms & -> & Hms).
    exists (matched r :: ms). split; [by rewrite <- app_assoc|].
    constructor; [|done]. apply (RegExp_exec_matched R S σ). by rewrite He.
  - exists []. by rewrite app_nil_r.
Qed.

(** [S.match(R)] is an array exactly when the pattern occurs in [S]; the
    array is not empty and holds pieces of [S]. *)
Lemma String_match_occurs S R σ :
  match (String_match S R σ).1 with
  | Some ms =>
    RegExp_test_pure R S = true
    /\ (0 < length ms)%nat
    /\ Forall (fun m => String_includes S m = true) ms
  | None => RegExp_test_pure R S = false
  end.
Proof.
  unfold String_match, RegExp_test_pure. destruct (global R) eqn:Hg.
  - replace (length S + 2) with (Datatypes.S (length S + 1)) by lia.
    cbn [matchLoop].
    destruct (RegExp_exec R S (setLastIndex σ R 0)) as [[r|] σ'] eqn:He.
    + pose proof (RegExp_exec_matched R S (setLastIndex σ R 0) r) as Hinc.
      rewrite He in Hinc. specialize (Hinc eq_refl).
      unfold RegExp_exec in He. rewrite Hg, getLastIndex_set in He.
      cbn [Nat.ltb Nat.leb] in He. rewrite drop_0 in He.
      destruct (search R S 0) as [[i n]|]; [|done].
      match goal with
      | |- context [matchLoop ?f R S ?A ?s] =>
        destruct (matchLoop_acc f R S A s) as (ms & Hms & Hall);
        destruct (matchLoop f R S A s) as [A' σ'']
      end.
      cbn [fst] in *. subst A'. cbn [app]. split; [|split].
      * by apply bool_decide_eq_true.
      * cbn. lia.
      * by constructor.
    + unfold RegExp_exec in He. rewrite Hg, getLastIndex_set in He.
      cbn [Nat.ltb Nat.leb] in He. rewrite drop_0 in He.
      destruct (search R S 0) as [[i n]|]; [done|].
      cbn [fst]. apply bool_decide_eq_false. by intros [? ?].
  - destruct (RegExp_exec R S σ) as [r σ'] eqn:He. cbn [fst].
    pose proof (RegExp_exec_matched R S σ) as Hinc. rewrite He in Hinc.
    unfold RegExp_exec in He. rewrite Hg in He.
    cbn [Nat.ltb Nat.leb] in He. rewrite drop_0 in He.
    destruct (search R S 0) as [[i n]|]; injection He as <- <-; cbn [fmap option_fmap option_map].
    + split; [by apply bool_decide_eq_true|]. split; [cbn; lia|].
      constructor; [|done]. by apply Hinc.
    + apply bool_decide_eq_false. by intros [? ?].
Qed.

(** What [identifyEmotionalElements] says of a label: the label, then the
    quoted matches of its pattern in the text. *)
Lemma fold_pushMatches_elements (text : JsString)
  (table : list (RegExp * JsString)) (elements : list JsString) σ :
  exists new,
    (fold_left (pushMatches text) table (elements, σ)).1 = elements ++ new
    /\ Forall2 (elementOf text) new
         (map snd
            (List.filter (fun entry => RegExp_test_pure entry.1 text) table)).
Proof.
  revert elements σ. induction table as [|[pattern type] table IH];
    intros elements σ.
  { exists []. split; [by rewrite app_nil_r|constructor]. }
  cbn [fold_left List.filter fst]. unfold pushMatches at 2.
  pose proof (String_match_occurs text pattern σ) as Hocc.
  destruct (String_match text pattern σ) as [[ms|] σ']; cbn [fst] in Hocc.
  - destruct Hocc as (-> & Hlen & Hall).
    destruct (IH (elements
                    ++ [type ++ js "：'" ++ Array_join ms (js "', '")
                          ++ js "'"]) σ') as (new & -> & Hnew).
    eexists (_ :: new). split; [by rewrite <- app_assoc|].
    cbn [map snd]. constructor; [|done]. by exists ms.
  - rewrite Hocc. apply IH.
Qed.


End EmotionalElements.

(** ** Biases inferred from the emotional elements *)

Section BiasInference.

Import Bias Spec.

(** The two nested loops visit the pairs of an element and an entry of
    the map, elements first. *)
Lemma infer_pairs (emotionalElements : list JsString) (st : Acc) :
  fold_left
    (fun acc element => fold_left (inferStep element) EMOTIONAL_BIAS_MAP acc)
    emotionalElements st
  = fold_left (fun acc p => inferStep p.1 acc p.2)
      (flat_map (fun element => map (pair element) EMOTIONAL_BIAS_MAP)
         emotionalElements)
      st.
Proof.
  revert st. induction emotionalElements as [|element els IH]; intros st;
    [done|].
  change (fold_left ?f (element :: els) st)
    with (fold_left f els (f st element)).
  change (flat_map ?f (element :: els)) with (f element ++ flat_map f els).
  rewrite fold_left_app, <- IH. reflexivity.
Qed.

Lemma infer_pairs_inv (ps : list (JsString * (JsString * BiasType))) :
  let st := fold_left (fun acc p => inferStep p.1 acc p.2) ps ([], ∅) in
  (forall ty,
     ty ∈ st.2
     <-> exists element keyword,
           (element, (keyword, ty)) ∈ ps
           /\ String_includes element keyword = true)
  /\ (forall b, b ∈ st.1 ->
        exists element keyword rule,
          (element, (keyword, CognitiveBias.type b)) ∈ ps
          /\ String_includes element keyword = true
          /\ rule ∈ BIAS_RULES
          /\ b = {| CognitiveBias.type := BiasRule.type rule;
                    CognitiveBias.typeLabel := BiasRule.typeLabel rule;
                    CognitiveBias.description :=
                      js "从表述中检测到：" ++ element;
                    CognitiveBias.mitigation := BiasRule.mitigation rule |})
  /\ (forall rule, rule ∈ BIAS_RULES -> BiasRule.type rule ∈ st.2 ->
        BiasRule.type rule ∈ map CognitiveBias.type st.1).
Proof.
  induction ps as [|[element [keyword biasType]] ps IH] using rev_ind.
  { cbn. split; [|split].
    - intros ty. split; [by intros ?%elem_of_empty|].
      by intros (? & ? & ?%elem_of_nil & _).
    - by intros b ?%elem_of_nil.
    - by intros rule _ ?%elem_of_empty. }
  cbv zeta in *. rewrite fold_left_app. cbn [fold_left fst snd].
  destruct (fold_left _ ps _) as [biases det]. cbn [fst snd] in IH.
  destruct IH as (Hdet & Hbiases & Hrules).
  assert (Hdet_old : forall ty,
    ty ∈ det ->
    exists el k,
      (el, (k, ty)) ∈ ps ++ [(element, (keyword, biasType))]
      /\ String_includes el k = true).
  { intros ty (el & k & Hin & Hinc)%Hdet. exists el, k.
    split; [apply elem_of_app; by left|done]. }
  assert (Hbiases_old : forall b, b ∈ biases ->
    exists el k rule,
      (el, (k, CognitiveBias.type b)) ∈ ps ++ [(element, (keyword, biasType))]
      /\ String_includes el k = true
      /\ rule ∈ BIAS_RULES
      /\ b = {| CognitiveBias.type := BiasRule.type rule;
                CognitiveBias.typeLabel := BiasRule.typeLabel rule;
                CognitiveBias.description := js "从表述中检测到：" ++ el;
                CognitiveBias.mitigation := BiasRule.mitigation rule |}).
  { intros b (el & k & rule & Hin & Hinc & Hrule & Hb)%Hbiases.
    exists el, k, rule. split; [apply elem_of_app; by left|done]. }
  unfold inferStep.
  destruct (String_includes element keyword) eqn:Hinc; cbn [andb].
  2:{ cbn [fst snd]. split; [|split]; [|done..].
      intros ty. split; [by auto|].
      intros (el & k & [Hin|Hin%list_elem_of_singleton]%elem_of_app & Hk).
      - apply Hdet. by exists el, k.
      - injection Hin as -> -> ->. by rewrite Hinc in Hk. }
  destruct (bool_decide_reflect (biasType ∈ det)) as [Hseen|Hfresh];
    cbn [negb].
  { cbn [fst snd]. split; [|split]; [|done..].
    intros ty. split; [by auto|].
    intros (el & k & [Hin|Hin%list_elem_of_singleton]%elem_of_app & Hk).
    - apply Hdet. by exists el, k.
    - by injection Hin as -> -> ->. }
  assert (Hdet_new : forall ty,
    ty ∈ ({[biasType]} ∪ det : gset BiasType)
    <-> exists el k,
          (el, (k, ty)) ∈ ps ++ [(element, (keyword, biasType))]
          /\ String_includes el k = true).
  { intros ty. split.
    - intros [->%elem_of_singleton|Hty]%elem_of_union; [|by auto].
      exists element, keyword.
      split; [apply elem_of_app; right; by apply list_elem_of_singleton|done].
    - intros (el & k & [Hin|Hin%list_elem_of_singleton]%elem_of_app & Hk).
      + apply elem_of_union_r, Hdet. by exists el, k.
      + injection Hin as -> -> ->. by apply elem_of_union_l, elem_of_singleton. }
  destruct (find _ BIAS_RULES) as [rule|] eqn:Hfind; cbn [fst snd].
  - apply find_some in Hfind as [Hrule%list_elem_of_In Hty%bool_decide_eq_true].
    split; [done|]. split.
    + intros b [Hb|Hb%list_elem_of_singleton]%elem_of_app; [by auto|].
      exists element, keyword, rule. subst b. cbn [CognitiveBias.type].
      rewrite Hty. repeat split; [|done..].
      apply elem_of_app. right. by apply list_elem_of_singleton.
    + intros rule' Hrule' [Heq%elem_of_singleton|Hin]%elem_of_union;
        rewrite map_app; apply elem_of_app.
      * right. cbn. rewrite Heq, Hty. by apply list_elem_of_singleton.
      * left. by apply Hrules.
  - split; [done|]. split; [done|].
    intros rule' Hrule' [Heq%elem_of_singleton|Hin]%elem_of_union;
      [|by apply Hrules].
    apply list_elem_of_In in Hrule'.
    pose proof (find_none _ _ Hfind rule' Hrule') as Hno.
    cbn in Hno. by apply bool_decide_eq_false in Hno.
Qed.

(** Every type of the map is the type of a rule. *)
Lemma EMOTIONAL_BIAS_MAP_rules (keyword : JsString) (ty : BiasType) :
  (keyword, ty) ∈ EMOTIONAL_BIAS_MAP ->
  exists rule, rule ∈ BIAS_RULES /\ BiasRule.type rule = ty.
Proof.
  intros Hin.
  assert (Hty : ty ∈ [groupPressure; shortTermFocus; confirmationBias]).
  { unfold EMOTIONAL_BIAS_MAP in Hin.
    repeat (apply elem_of_cons in Hin as [[= _ ->]|Hin];
            [apply (bool_decide_unpack _); vm_compute; reflexivity|]).
    by apply elem_of_nil in Hin. }
  assert (Hrules : ty ∈ map BiasRule.type BIAS_RULES).
  { rewrite BIAS_RULES_types.
    repeat (apply elem_of_cons in Hty as [->|Hty];
            [apply (bool_decide_unpack _); vm_compute; reflexivity|]).
    by apply elem_of_nil in Hty. }
  apply list_elem_of_In, in_map_iff in Hrules as (rule & Hr & Hin').
  exists rule. by rewrite list_elem_of_In.
Qed.

Lemma elem_of_pairs (emotionalElements : list JsString)
  (element keyword : JsString) (ty : BiasType) :
  (element, (keyword, ty))
    ∈ flat_map (fun element => map (pair element) EMOTIONAL_BIAS_MAP)
        emotionalElements
  <-> element ∈ emotionalElements /\ (keyword, ty) ∈ EMOTIONAL_BIAS_MAP.
Proof.
  rewrite list_elem_of_In, in_flat_map. split.
  - intros (el & Hel & (entry & [= -> ->] & Hentry)%in_map_iff).
    by rewrite !list_elem_of_In.
  - intros [Hel Hentry]. exists element. rewrite <- list_elem_of_In.
    split; [done|]. apply in_map_iff. exists (keyword, ty).
    by rewrite <- list_elem_of_In.
Qed.

(** Soundness: what an inferred warning is made of. *)
Lemma inferBiasesFromEmotions_sound (emotionalElements : list JsString) :
  Forall
    (fun b =>
       exists element keyword rule,
         element ∈ emotionalElements
         /\ (keyword, CognitiveBias.type b) ∈ EMOTIONAL_BIAS_MAP
         /\ String_includes element keyword = true
         /\ rule ∈ BIAS_RULES
         /\ b = {| CognitiveBias.type := BiasRule.type rule;
                   CognitiveBias.typeLabel := BiasRule.typeLabel rule;
                   CognitiveBias.description :=
                     js "从表述中检测到：" ++ element;
                   CognitiveBias.mitigation := BiasRule.mitigation rule |})
    (inferBiasesFromEmotions emotionalElements).
Proof.
  unfold inferBiasesFromEmotions. rewrite infer_pairs.
  pose proof (infer_pairs_inv
    (flat_map (fun element => map (pair element) EMOTIONAL_BIAS_MAP)
       emotionalElements)) as (_ & Hbiases & _).
  cbv zeta in *. destruct (fold_left _ _ _) as [biases det].
  cbn [fst snd] in *. apply Forall_forall.
  intros b (el & k & rule & [Hel Hk]%elem_of_pairs & Hinc & Hrule & Hb)
    %Hbiases.
  by exists el, k, rule.
Qed.

(** Completeness: a keyword of the map in an element is never missed. *)
Lemma inferBiasesFromEmotions_complete (emotionalElements : list JsString)
  (element keyword : JsString) (ty : BiasType) :
  element ∈ emotionalElements ->
  (keyword, ty) ∈ EMOTIONAL_BIAS_MAP ->
  String_includes element keyword = true ->
  ty ∈ map CognitiveBias.type (inferBiasesFromEmotions emotionalElements).
Proof.
  intros Hel Hk Hinc. unfold inferBiasesFromEmotions. rewrite infer_pairs.
  pose proof (infer_pairs_inv
    (flat_map (fun element => map (pair element) EMOTIONAL_BIAS_MAP)
       emotionalElements)) as (Hdet & _ & Hrules).
  cbv zeta in *. destruct (fold_left _ _ _) as [biases det].
  cbn [fst snd] in *.
  destruct (EMOTIONAL_BIAS_MAP_rules keyword ty Hk) as (rule & Hrule & <-).
  apply Hrules; [done|]. apply Hdet. exists element, keyword.
  by rewrite elem_of_pairs.
Qed.

(** A bias type is inferred exactly when some emotional element includes a
    keyword that the map sends to it; the warning carries the label and
    the mitigation of the rule of that type, and quotes such an element
    as its description. *)
Theorem inferBiasesFromEmotions_sound_complete
  (emotionalElements : list JsString) :
  (forall ty,
     ty ∈ map CognitiveBias.type (inferBiasesFromEmotions emotionalElements)
     <-> exists element keyword,
           element ∈ emotionalElements
           /\ (keyword, ty) ∈ EMOTIONAL_BIAS_MAP
           /\ String_includes element keyword = true)
  /\ Forall
       (fun b =>
          exists element keyword rule,
            element ∈ emotionalElements
            /\ (keyword, CognitiveBias.type b) ∈ EMOTIONAL_BIAS_MAP
            /\ String_includes element keyword = true
            /\ rule ∈ BIAS_RULES
            /\ b = {| CognitiveBias.type := BiasRule.type rule;
                      CognitiveBias.typeLabel := BiasRule.typeLabel rule;
                      CognitiveBias.description :=
                        js "从表述中检测到：" ++ element;
                      CognitiveBias.mitigation := BiasRule.mitigation rule |})
       (inferBiasesFromEmotions emotionalElements).
Proof.
  pose proof (inferBiasesFromEmotions_sound emotionalElements) as Hsound.
  split; [|exact Hsound].
  intros ty. split.
  - intros (b & <- & Hb%list_elem_of_In)%list_elem_of_In%in_map_iff.
    rewrite Forall_forall in Hsound.
    destruct (Hsound b Hb) as (el & k & rule & Hel & Hk & Hinc & _).
    by exists el, k.
  - intros (el & k & Hel & Hk & Hinc).
    by apply (inferBiasesFromEmotions_complete _ el k).
Qed.

End BiasInference.

(** ** The bias warnings *)

Section BiasWarningsEntries.

Import Bias Spec.

(** [analyzeBias] returns between one and seven warnings.  Each is the
    generic reminder, or carries the type, the label and the mitigation of
    one rule of the table; its description is the rule's when the rule
    fires on the original text, and a quotation of an emotional element
    otherwise. *)
Theorem analyzeBias_entries (r : ReframedProblem.t) :
  let biases := BiasWarnings.biases (analyzeBias r) in
  (1 <=? length biases)%nat && (length biases <=? 7)%nat = true
  /\ Forall
       (fun b =>
          b = genericReminder
          \/ exists rule,
               rule ∈ BIAS_RULES
               /\ CognitiveBias.type b = BiasRule.type rule
               /\ CognitiveBias.typeLabel b = BiasRule.typeLabel rule
               /\ CognitiveBias.mitigation b = BiasRule.mitigation rule
               /\ (fires (ReframedProblem.original r) rule = true
                   /\ CognitiveBias.description b = BiasRule.description rule
                   \/ fires (ReframedProblem.original r) rule = false
                      /\ exists element,
                           element ∈ ReframedProblem.emotionalElements r
                           /\ CognitiveBias.description b
                              = js "从表述中检测到：" ++ element))
       biases.
Proof.
  intros biases. subst biases.
  pose proof (analyzeBias_merge r) as Heq. cbv zeta in Heq.
  pose proof (merged_NoDup r) as Hnd. cbv zeta in Hnd.
  set (textBiases := detectBiasesFromText (ReframedProblem.original r)) in *.
  set (emotionBiases :=
         inferBiasesFromEmotions (ReframedProblem.emotionalElements r)) in *.
  set (merged :=
         textBiases
           ++ filter
                (fun b =>
                   CognitiveBias.type b ∉ map CognitiveBias.type textBiases)
                emotionBiases) in *.
  assert (Hentries : Forall
    (fun b =>
       exists rule,
         rule ∈ BIAS_RULES
         /\ CognitiveBias.type b = BiasRule.type rule
         /\ CognitiveBias.typeLabel b = BiasRule.typeLabel rule
         /\ CognitiveBias.mitigation b = BiasRule.mitigation rule
         /\ (fires (ReframedProblem.original r) rule = true
             /\ CognitiveBias.description b = BiasRule.description rule
             \/ fires (ReframedProblem.original r) rule = false
                /\ exists element,
                     element ∈ ReframedProblem.emotionalElements r
                     /\ CognitiveBias.description b
                        = js "从表述中检测到：" ++ element))
    merged).
  { apply Forall_app. split; apply Forall_forall; intros b Hb.
    - unfold textBiases in Hb. rewrite detectBiasesFromText_filter in Hb.
      apply list_elem_of_In, in_map_iff in Hb
        as (rule & <- & [Hrule%list_elem_of_In Hf]%filter_In).
      exists rule. repeat split; [done|]. by left.
    - apply list_elem_of_filter in Hb as [Hfresh Hb].
      pose proof (inferBiasesFromEmotions_sound
                    (ReframedProblem.emotionalElements r)) as Hsound.
      rewrite Forall_forall in Hsound.
      destruct (Hsound b Hb) as (el & k & rule & Hel & _ & _ & Hrule & ->).
      exists rule. repeat split; [done|]. right. split; [|by exists el].
      cbn [CognitiveBias.type] in Hfresh.
      destruct (fires (ReframedProblem.original r) rule) eqn:Hf; [|done].
      destruct Hfresh. unfold textBiases.
      rewrite detectBiasesFromText_filter, map_map.
      apply list_elem_of_In, in_map_iff. exists rule.
      split; [done|]. apply filter_In. by rewrite <- list_elem_of_In. }
  assert (Hlen : (length merged <= 7)%nat).
  { rewrite <- (length_map CognitiveBias.type).
    change 7 with (length (map BiasRule.type BIAS_RULES)).
    apply submseteq_length, NoDup_submseteq; [done|].
    intros ty (b & <- & Hb%list_elem_of_In)%list_elem_of_In%in_map_iff.
    rewrite Forall_forall in Hentries.
    destruct (Hentries b Hb) as (rule & Hrule & -> & _).
    by apply list_elem_of_In, in_map, list_elem_of_In. }
  rewrite Heq. destruct merged as [|b merged'].
  - split; [done|]. constructor; [by left|constructor].
  - split.
    + apply andb_true_iff. split; [done|]. by apply Nat.leb_le.
    + eapply Forall_impl; [exact Hentries|]. intros b' Hb'. by right.
Qed.

End BiasWarningsEntries.

(** ** From the emotional elements to the bias warnings *)

Section EmotionToBias.

Import Reframe Bias Spec.

(** In the pipeline, the expressions of group pressure, urgency,
    competition and a foregone conclusion always end in a warning: when a
    pattern of the Reframer occurs in the text and the map sends its label
    to a bias type, the analysis warns of that type, whether or not a rule
    of the bias table fires on the text. *)
Theorem pipeline_bias_of_emotion (problemText : JsString) (σ : Store)
  (pattern : RegExp) (label : JsString) (ty : BiasType) :
  (pattern, label) ∈ EMOTIONAL_PATTERNS ++ STANCE_PATTERNS ->
  (label, ty) ∈ EMOTIONAL_BIAS_MAP ->
  RegExp_test_pure pattern problemText = true ->
  ty ∈ map CognitiveBias.type
         (BiasWarnings.biases
            (DecisionAnalysis.biasWarnings
               (Tool.analyzeDecision problemText σ).1)).
Proof.
  intros Hpattern Hmap Htest. unfold Tool.analyzeDecision.
  assert (Hel : exists element,
    element ∈ (identifyEmotionalElements problemText σ).1
    /\ String_includes element label = true).
  { unfold identifyEmotionalElements. rewrite <- fold_left_app.
    destruct (fold_pushMatches_elements problemText
                (EMOTIONAL_PATTERNS ++ STANCE_PATTERNS) [] σ)
      as (new & -> & Hnew). cbn [app].
    assert (Hlabel : label
      ∈ map snd
          (List.filter (fun entry => RegExp_test_pure entry.1 problemText)
             (EMOTIONAL_PATTERNS ++ STANCE_PATTERNS))).
    { apply list_elem_of_In, in_map_iff. exists (pattern, label).
      split; [done|]. apply filter_In. by rewrite <- list_elem_of_In. }
    apply list_elem_of_lookup in Hlabel as [i Hi].
    destruct (Forall2_lookup_r _ _ _ _ _ Hnew Hi)
      as (element & Hlook & ms & -> & _).
    eexists. split; [by eapply list_elem_of_lookup_2|].
    apply String_includes_spec. by exists [], (js "：'" ++ Array_join ms (js "', '") ++ js "'"). }
  unfold analyzeAndReframe.
  destruct (identifyEmotionalElements problemText σ) as [elements σ'].
  cbn [fst DecisionAnalysis.biasWarnings] in *.
  destruct Hel as (element & Hel & Hinc).
  set (r := {| ReframedProblem.original := problemText;
               ReframedProblem.reframed := _;
               ReframedProblem.emotionalElements := elements |}).
  pose proof (analyzeBias_merge r) as Heq. cbv zeta in Heq.
  cbn [ReframedProblem.original ReframedProblem.emotionalElements r] in Heq.
  assert (Hty : ty ∈ map CognitiveBias.type (inferBiasesFromEmotions elements))
    by by apply (inferBiasesFromEmotions_complete _ element label).
  set (textBiases := detectBiasesFromText problemText) in *.
  assert (Hmerged : ty
    ∈ map CognitiveBias.type
        (textBiases
           ++ filter
                (fun b =>
                   CognitiveBias.type b ∉ map CognitiveBias.type textBiases)
                (inferBiasesFromEmotions elements))).
  { rewrite map_app. apply elem_of_app.
    destruct (decide (ty ∈ map CognitiveBias.type textBiases)) as [Hin|Hnin];
      [by left|right].
    apply list_elem_of_In, in_map_iff in Hty as (b & <- & Hb%list_elem_of_In).
    apply list_elem_of_In, in_map, list_elem_of_In.
    by apply list_elem_of_filter. }
  rewrite Heq.
  destruct (textBiases ++ _) as [|b bs]; [by apply elem_of_nil in Hmerged|done].
Qed.

Lemma pipeline_bias_of_emotion_witness :
  groupPressure
    ∈ map CognitiveBias.type
        (BiasWarnings.biases
           (DecisionAnalysis.biasWarnings
              (Tool.analyzeDecision (js "身边的同学都去了大厂") ∅).1)).
Proof.
  apply (pipeline_bias_of_emotion (js "身边的同学都去了大厂") ∅
           (regex 7 "别人都|大家都|很多人都|身边.*都" "g") (js "群体压力")).
  - apply list_elem_of_In. cbn [EMOTIONAL_PATTERNS app In].
    do 7 right. left. reflexivity.
  - apply (bool_decide_unpack _). vm_compute. reflexivity.
  - vm_compute. reflexivity.
Defined.

End EmotionToBias.

(** ** The themes in the reframed question *)

Section ThemesInQuestion.

Import Reframe Spec.

Lemma String_includes_refl (s : JsString) : String_includes s s = true.
Proof. apply String_includes_spec. exists [], []. by rewrite app_nil_r. Qed.

Lemma Array_join_includes (parts : list JsString) (sep p : JsString) :
  p ∈ parts -> String_includes (Array_join parts sep) p = true.
Proof.
  induction parts as [|q [|q' parts] IH].
  - by intros ?%elem_of_nil.
  - intros ->%list_elem_of_singleton. apply String_includes_refl.
  - intros [->|Hin]%elem_of_cons.
    + apply String_includes_app_l, String_includes_refl.
    + change (Array_join (q :: q' :: parts) sep)
        with (q ++ sep ++ Array_join (q' :: parts) sep).
      by apply String_includes_app_r, String_includes_app_r, IH.
Qed.

(** The template of each of the five themes holds the substituted label. *)
Lemma templateOf_includes (theme themeStr : JsString) :
  theme ∈ map fst THEME_GROUPS ->
  String_includes (templateOf theme themeStr) themeStr = true.
Proof.
  intros Hkey. apply String_includes_spec.
  cbn [map THEME_GROUPS fst] in Hkey.
  apply elem_of_cons in Hkey as [->|Hkey].
  { exists (js "在当前个人条件（技能、经验、资源）和市场环境下，不同"),
      (js "路径的长期收益与风险结构是什么？").
    vm_compute. reflexivity. }
  apply elem_of_cons in Hkey as [->|Hkey].
  { exists (js "在给定个人背景、目标和约束条件下，"),
      (js "相比现状的长期价值与成本结构是什么？").
    vm_compute. reflexivity. }
  apply elem_of_cons in Hkey as [->|Hkey].
  { exists (js "在当前阶段进行"), (js "，其投入产出比和机会成本结构是什么？").
    vm_compute. reflexivity. }
  apply elem_of_cons in Hkey as [->|Hkey].
  { exists [], (js "在不同情景下的风险收益分布和个人承受能力匹配度如何？").
    vm_compute. reflexivity. }
  apply elem_of_cons in Hkey as [->|Hkey].
  { exists [], (js "决策涉及哪些关键变量、约束条件和不确定性？").
    vm_compute. reflexivity. }
  by apply elem_of_nil in Hkey.
Qed.

Lemma matchingThemes_sublist (text : JsString) :
  matchingThemes text `sublist_of` map fst THEME_GROUPS.
Proof.
  unfold matchingThemes. apply fmap_sublist.
  induction THEME_GROUPS as [|g gs IH]; cbn [List.filter]; [done|].
  destruct (existsb _ (snd g)); by constructor.
Qed.

(** Between one and five themes are found, none twice, and the reframed
    question names every one of the matching themes, not the first one
    alone. *)
Theorem reframed_names_every_theme (text : JsString) (σ : Store) :
  (1 <=? length (extractCoreThemes text))%nat
  && (length (extractCoreThemes text) <=? 5)%nat = true
  /\ NoDup (extractCoreThemes text)
  /\ Forall
       (fun theme =>
          String_includes
            (ReframedProblem.reframed (analyzeAndReframe text σ).1) theme
          = true)
       (matchingThemes text).
Proof.
  assert (Hreframed :
    ReframedProblem.reframed (analyzeAndReframe text σ).1
    = templateOf (firstTheme text) (Array_join (themesOf text) (js "与"))).
  { unfold analyzeAndReframe.
    destruct (identifyEmotionalElements text σ) as [elements σ'].
    cbn [fst ReframedProblem.reframed].
    rewrite extractCoreThemes_all_matching.
    apply generateReframedQuestion_template. }
  rewrite Hreframed, extractCoreThemes_all_matching.
  pose proof (matchingThemes_sublist text) as Hsub.
  pose proof (sublist_length _ _ Hsub) as Hlen.
  assert (Hnd : NoDup (matchingThemes text)).
  { eapply sublist_NoDup; [|exact Hsub].
    apply (bool_decide_unpack _). vm_compute. reflexivity. }
  change (length (map fst THEME_GROUPS)) with 5 in Hlen.
  unfold themesOf, firstTheme.
  destruct (matchingThemes text) as [|t ts] eqn:Hthemes.
  { split; [done|]. split; [apply NoDup_singleton|constructor]. }
  split; [|split; [done|]].
  - apply andb_true_iff. split; [done|]. by apply Nat.leb_le.
  - apply Forall_forall. intros theme Hin. cbn [hd].
    eapply String_includes_trans; [|by apply Array_join_includes].
    apply templateOf_includes.
    eapply elem_of_submseteq; [|by apply sublist_submseteq]. by left.
Qed.

End ThemesInQuestion.

(** ** The report *)

Section ReportOfPipeline.

Import Report Spec.

Variable Number_toString : float -> JsString.
Variable Error_message : Exn -> JsString.





(** Outside the pipeline the report can fail: a probability of -5 asks
    for a bar of -1 blocks. *)
Example formatDistribution_negative :
  formatDistribution Number_toString (OutcomeDistribution.mk (-5) (js "x"))
  = Throw (RangeError (-1)).
Proof. vm_compute. reflexivity. Qed.

End ReportOfPipeline.
